(** * Transform primitives of featuretools: a shallow embedding

    The module [featuretools/primitives/transform_primitive.py] defines
    [TransformPrimitive] and the catalog of concrete transform primitives.
    This development embeds the constructors, the naming rules, the derived
    attributes and the functions returned by [get_function], and states the
    properties of the specification against them.

    Python values are modelled as follows.  An exception is a value of
    [Exception]; a computation that may raise returns a [Res].  An instance
    is a record of its attributes; a feature is either a node implemented
    outside the module (an identity feature over a raw column, an
    aggregation) or an instance of one of the classes of the module.  The
    arrays handed to the functions of [get_function] are lists. *)

From Stdlib Require Import ZArith Floats Uint63 Ascii.
From Stdlib Require String.
From stdpp Require Import gmap strings list pretty.

Local Open Scope Z_scope.
#[local] Set Warnings "-register-all".

(** ** Exceptions and results *)

Inductive Exception : Type :=
  | AssertionError (msg : string)
  | AttributeError (msg : string)
  | TypeError (msg : string)
  | IndexError (msg : string)
  | ValueError (msg : string)
  | OverflowError (msg : string)
  | ArgumentCoercionError
  | TypeContractViolation.

Inductive Res (A : Type) : Type :=
  | Ok (a : A)
  | Raise (e : Exception).
Arguments Ok {A} a.
Arguments Raise {A} e.

Definition Res_bind {A B} (f : A → Res B) (m : Res A) : Res B :=
  match m with
  | Ok a => f a
  | Raise e => Raise e
  end.

#[global] Instance Res_ret : MRet Res := λ A a, Ok a.
#[global] Instance Res_mbind : MBind Res := λ A B f m, Res_bind f m.

(** ** The variable-type taxonomy *)

Inductive VariableType : Set :=
  | Variable_ | Numeric | Boolean | Discrete | Categorical | Ordinal | Id
  | Text | Datetime | TimeIndex | DatetimeTimeIndex | Timedelta.

#[global] Instance VariableType_eq_dec : EqDecision VariableType.
Proof. solve_decision. Defined.

(** Modelled from the spec: the module [featuretools.variable_types] is not
    among the sources.  The spec gives the taxonomy as Numeric, Boolean,
    Discrete {Categorical, Ordinal, Id}, Text, Datetime {TimeIndex
    {DatetimeTimeIndex}}, Timedelta, all of them kinds of Variable.  [mro t]
    lists [t] and its ancestors. *)
Definition mro (t : VariableType) : list VariableType :=
  match t with
  | Variable_ => [Variable_]
  | Numeric => [Numeric; Variable_]
  | Boolean => [Boolean; Variable_]
  | Discrete => [Discrete; Variable_]
  | Categorical => [Categorical; Discrete; Variable_]
  | Ordinal => [Ordinal; Discrete; Variable_]
  | Id => [Id; Discrete; Variable_]
  | Text => [Text; Variable_]
  | Datetime => [Datetime; Variable_]
  | TimeIndex => [TimeIndex; Datetime; Variable_]
  | DatetimeTimeIndex => [DatetimeTimeIndex; TimeIndex; Datetime; Variable_]
  | Timedelta => [Timedelta; Variable_]
  end.

Definition issubclass (t u : VariableType) : bool := bool_decide (u ∈ mro t).

(** ** Python scalars *)

(** The scalars that occur as default values and in membership lists. *)
Inductive PyValue : Set :=
  | PyNone
  | PyBool (b : bool)
  | PyInt (z : Z).

#[global] Instance PyValue_eq_dec : EqDecision PyValue.
Proof. solve_decision. Defined.



(** [repr] of a scalar and [str] of an optional list of scalars. *)
Definition py_repr (v : PyValue) : string :=
  match v with
  | PyNone => "None"
  | PyBool true => "True"
  | PyBool false => "False"
  | PyInt z => pretty z
  end.

Definition py_str_list (l : option (list PyValue)) : string :=
  match l with
  | None => "None"
  | Some vs => "[" +:+ String.concat ", " (py_repr <$> vs) +:+ "]"
  end.

(** [str.upper] on the ASCII letters, which is all a class name holds. *)
Definition ascii_upper (c : ascii) : ascii :=
  let n := nat_of_ascii c in
  if bool_decide (97 ≤ n ≤ 122)%nat then ascii_of_nat (n - 32) else c.

Fixpoint upper (s : string) : string :=
  match s with
  | EmptyString => EmptyString
  | String c s' => String (ascii_upper c) (upper s')
  end.

(** ** The classes of the module and their class attributes *)

Inductive PrimitiveClass : Set :=
  | IsNull | Absolute | TimeSincePrevious
  | DatetimeUnitBasePrimitive | TimedeltaUnitBasePrimitive
  | Day | Days | Hour | Hours | Second | Seconds | Minute | Minutes
  | Week | Weeks | Month | Months | Year | Years
  | Weekend | Weekday | TimeSince | DaysSince | IsIn | Diff | Not | Percentile.

#[global] Instance PrimitiveClass_eq_dec : EqDecision PrimitiveClass.
Proof. solve_decision. Defined.

(** The class attribute [name]; the two unit base classes set it to [None]. *)
Definition name (c : PrimitiveClass) : option string :=
  match c with
  | IsNull => Some "is_null"
  | Absolute => Some "absolute"
  | TimeSincePrevious => Some "time_since_previous"
  | DatetimeUnitBasePrimitive => None
  | TimedeltaUnitBasePrimitive => None
  | Day => Some "day"
  | Days => Some "days"
  | Hour => Some "hour"
  | Hours => Some "hours"
  | Second => Some "second"
  | Seconds => Some "seconds"
  | Minute => Some "minute"
  | Minutes => Some "minutes"
  | Week => Some "week"
  | Weeks => Some "weeks"
  | Month => Some "month"
  | Months => Some "months"
  | Year => Some "year"
  | Years => Some "years"
  | Weekend => Some "is_weekend"
  | Weekday => Some "weekday"
  | TimeSince => Some "time_since"
  | DaysSince => Some "days_since"
  | IsIn => Some "isin"
  | Diff => Some "diff"
  | Not => Some "not"
  | Percentile => Some "percentile"
  end.

(** The class attribute [input_types], as the list of its alternative
    contracts (a single contract is a list of one). *)
Definition input_types (c : PrimitiveClass) : list (list VariableType) :=
  match c with
  | IsNull | IsIn => [[Variable_]]
  | Absolute | Percentile => [[Numeric]]
  | TimeSincePrevious => [[DatetimeTimeIndex; Id]]
  | DatetimeUnitBasePrimitive | Day | Hour | Second | Minute | Week | Month
  | Year | Weekday | Weekend => [[Datetime]]
  | TimedeltaUnitBasePrimitive | Days | Hours | Seconds | Minutes | Weeks
  | Months | Years => [[Timedelta]]
  | TimeSince => [[DatetimeTimeIndex]; [Datetime]]
  | DaysSince => [[DatetimeTimeIndex]]
  | Diff => [[Numeric; Id]]
  | Not => [[Boolean]]
  end.

Definition return_type (c : PrimitiveClass) : VariableType :=
  match c with
  | IsNull | Weekend | IsIn | Not => Boolean
  | Absolute | TimeSincePrevious | Diff | Percentile | DaysSince => Numeric
  | DatetimeUnitBasePrimitive | Day | Hour | Second | Minute | Week | Month
  | Year | Weekday => Ordinal
  | TimedeltaUnitBasePrimitive | Days | Hours | Seconds | Minutes | Weeks
  | Months | Years => Numeric
  | TimeSince => Timedelta
  end.

Definition uses_calc_time (c : PrimitiveClass) : bool :=
  match c with
  | TimeSince | DaysSince => true
  | _ => false
  end.

Definition rolling_function (c : PrimitiveClass) : bool := false.

(** ** Features and instances *)

Abbreviation Entity := string (only parsing).

(** A feature implemented outside this module, seen through the attributes
    the module reads: [entity], [variable_type], [default_value],
    [expanding] and the result of [get_name()]. *)
Record FeatureNode : Type := mkFeatureNode {
  node_entity : Entity;
  node_variable_type : VariableType;
  node_default_value : PyValue;
  node_expanding : bool;
  node_name : string
}.

(** The attributes of an instance of a class of this module.  [entity] is
    assigned by [PrimitiveBase.__init__]; [expanding] is the class attribute
    ([False]) until [TransformPrimitive.__init__] overrides it;
    [group_feature] and [list_of_outputs] are assigned by the constructors
    of the classes that have them. *)
Record PrimitiveOf (F : Type) : Type := mkPrimitive {
  cls : PrimitiveClass;
  base_features : list F;
  expanding : bool;
  group_feature : option F;
  list_of_outputs : option (list PyValue);
  entity : Entity
}.
Arguments mkPrimitive {F}.
Arguments cls {F}.
Arguments base_features {F}.
Arguments expanding {F}.
Arguments group_feature {F}.
Arguments list_of_outputs {F}.
Arguments entity {F}.

Inductive Feature : Type :=
  | BaseFeature (node : FeatureNode)
  | TransformFeature (self : PrimitiveOf Feature).

Abbreviation Primitive := (PrimitiveOf Feature).

(** What a constructor may receive in the place of a base feature. *)
Inductive Arg : Type :=
  | ArgFeature (f : Feature)
  | ArgVariable (column : FeatureNode)
  | ArgOther.

(** The object [cls.__new__] returns, before [__init__] runs: no attribute
    is assigned yet.  The fields hold the class attribute where there is one
    and are otherwise placeholders that no constructor reads before it
    assigns them. *)
Definition object_new (c : PrimitiveClass) : Primitive :=
  mkPrimitive c [] false None None "".

Definition set_base_features (self : Primitive) (bfs : list Feature) : Primitive :=
  mkPrimitive (cls self) bfs (expanding self) (group_feature self)
    (list_of_outputs self) (entity self).

Definition set_expanding (self : Primitive) (b : bool) : Primitive :=
  mkPrimitive (cls self) (base_features self) b (group_feature self)
    (list_of_outputs self) (entity self).

Definition set_group_feature (self : Primitive) (g : Feature) : Primitive :=
  mkPrimitive (cls self) (base_features self) (expanding self) (Some g)
    (list_of_outputs self) (entity self).

Definition set_list_of_outputs (self : Primitive) (l : option (list PyValue)) : Primitive :=
  mkPrimitive (cls self) (base_features self) (expanding self)
    (group_feature self) l (entity self).

Definition set_entity (self : Primitive) (e : Entity) : Primitive :=
  mkPrimitive (cls self) (base_features self) (expanding self)
    (group_feature self) (list_of_outputs self) e.

(** *** Attributes of a feature *)

Definition Feature_entity (f : Feature) : Entity :=
  match f with
  | BaseFeature node => node_entity node
  | TransformFeature self => entity self
  end.

Definition Feature_expanding (f : Feature) : bool :=
  match f with
  | BaseFeature node => node_expanding node
  | TransformFeature self => expanding self
  end.

(** Modelled from the spec: [PrimitiveBase.variable_type] is not among the
    sources; the spec tags the result of a primitive with its declared
    output kind, [return_type]. *)
Definition Feature_variable_type (f : Feature) : VariableType :=
  match f with
  | BaseFeature node => node_variable_type node
  | TransformFeature self => return_type (cls self)
  end.

(** The property [TransformPrimitive.default_value]:
    [self.base_features[0].default_value]. *)
Fixpoint Feature_default_value (f : Feature) : Res PyValue :=
  match f with
  | BaseFeature node => Ok (node_default_value node)
  | TransformFeature self =>
      match base_features self with
      | f0 :: _ => Feature_default_value f0
      | [] => Raise (IndexError "list index out of range")
      end
  end.

(** A [property] of a class: a getter and, when the class declares one, a
    setter.  Reading the attribute calls the getter; assigning to it calls
    the setter, and raises when there is none. *)
Record Property (A : Type) : Type := mkProperty {
  fget : Primitive → Res A;
  fset : option (Primitive → A → Res Primitive)
}.
Arguments mkProperty {A}.
Arguments fget {A}.
Arguments fset {A}.

Definition property_get {A} (prop : Property A) (self : Primitive) : Res A :=
  fget prop self.

Definition property_set {A} (prop : Property A) (self : Primitive) (v : A) : Res Primitive :=
  match fset prop with
  | Some f => f self v
  | None => Raise (AttributeError "can't set attribute")
  end.

(** [TransformPrimitive.default_value], declared with [@property] and
    without a setter. *)
Definition TransformPrimitive_default_value : Property PyValue :=
  mkProperty (λ self, Feature_default_value (TransformFeature self)) None.

(** [self.default_value] *)
Definition default_value (self : Primitive) : Res PyValue :=
  property_get TransformPrimitive_default_value self.

(** ** Construction *)

(** Modelled from the spec: [PrimitiveBase._check_feature] is not among the
    sources.  The spec: an argument that is not already a Feature is wrapped
    as a raw-column reference; a Feature is used as it is; anything else
    fails. *)
Definition _check_feature (a : Arg) : Res Feature :=
  match a with
  | ArgFeature f => Ok f
  | ArgVariable column => Ok (BaseFeature column)
  | ArgOther => Raise ArgumentCoercionError
  end.

(** Modelled from the spec: the check of the type contract is not among the
    sources.  The spec: a contract is a sequence of accepted kinds, matched
    positionally against the base features by the subtype relation.  The
    spec gives no rule on the number of base features, and none is modelled:
    a contract is matched at the positions it shares with the base
    features. *)
Definition matches_contract (bfs : list Feature) (contract : list VariableType) : bool :=
  forallb (λ ft, issubclass (Feature_variable_type ft.1) ft.2) (zip bfs contract).

(** Modelled from the spec: [PrimitiveBase.__init__] is not among the
    sources.  The spec: it fixes the owning entity and the base features, and
    every base feature must satisfy one of the declared input-type contracts
    at its position, by the subtype relation. *)
Definition PrimitiveBase__init__ (self : Primitive) (e : Entity)
    (bfs : list Feature) : Res Primitive :=
  let self := set_base_features (set_entity self e) bfs in
  if existsb (matches_contract bfs) (input_types (cls self))
  then Ok self
  else Raise TypeContractViolation.

(** [len(set([f.entity for f in self.base_features]))] *)
Definition entities (bfs : list Feature) : gset Entity :=
  list_to_set (Feature_entity <$> bfs).

(** [TransformPrimitive.__init__(self, *base_features)] *)
Definition TransformPrimitive__init__ (self : Primitive) (args : list Arg) : Res Primitive :=
  bfs ← mapM _check_feature args;
  let self := set_base_features self bfs in
  let self :=
    if existsb Feature_expanding (base_features self)
    then set_expanding self true
    else self in
  if bool_decide (size (entities (base_features self)) = 1%nat)
  then
    match base_features self with
    | f0 :: _ => PrimitiveBase__init__ self (Feature_entity f0) (base_features self)
    | [] => Raise (IndexError "list index out of range")
    end
  else Raise (AssertionError "More than one entity for base features").

(** [TimeSincePrevious.__init__(self, time_index, group_feature)] *)
Definition TimeSincePrevious__init__ (self : Primitive) (time_index group_feature : Arg)
    : Res Primitive :=
  group_feature ← _check_feature group_feature;
  if issubclass (Feature_variable_type group_feature) Discrete
  then
    let self := set_group_feature self group_feature in
    TransformPrimitive__init__ self [time_index; ArgFeature group_feature]
  else Raise (AssertionError "group_feature must have a discrete variable_type").

(** [IsIn.__init__(self, base_feature, list_of_outputs=None)] *)
Definition IsIn__init__ (self : Primitive) (base_feature : Arg)
    (list_of_outputs : option (list PyValue)) : Res Primitive :=
  let self := set_list_of_outputs self list_of_outputs in
  TransformPrimitive__init__ self [base_feature].

(** [Diff.__init__(self, base_feature, group_feature)] *)
Definition Diff__init__ (self : Primitive) (base_feature group_feature : Arg)
    : Res Primitive :=
  checked ← _check_feature group_feature;
  let self := set_group_feature self checked in
  TransformPrimitive__init__ self [base_feature; group_feature].

(** Calling a class that inherits [TransformPrimitive.__init__] on its
    positional arguments. *)
Definition new_transform (c : PrimitiveClass) (args : list Arg) : Res Primitive :=
  TransformPrimitive__init__ (object_new c) args.

Definition new_TimeSincePrevious (time_index group_feature : Arg) : Res Primitive :=
  TimeSincePrevious__init__ (object_new TimeSincePrevious) time_index group_feature.

Definition new_IsIn (base_feature : Arg) (list_of_outputs : option (list PyValue))
    : Res Primitive :=
  IsIn__init__ (object_new IsIn) base_feature list_of_outputs.

Definition new_Diff (base_feature group_feature : Arg) : Res Primitive :=
  Diff__init__ (object_new Diff) base_feature group_feature.

(** ** Display names *)

Section Naming.
(** [get_name] of a feature, the knot tied in [Feature_get_name] below. *)
Variable get_name : Feature → Res string.

(** [self.base_features[0].get_name()] *)
Definition first_base_feature_name (self : Primitive) : Res string :=
  match base_features self with
  | f0 :: _ => get_name f0
  | [] => Raise (IndexError "list index out of range")
  end.

(** [self.group_feature.get_name()] *)
Definition group_feature_name (self : Primitive) : Res string :=
  match group_feature self with
  | Some g => get_name g
  | None => Raise (AttributeError "group_feature")
  end.

(** [self.name.upper()] *)
Definition name_upper (self : Primitive) : Res string :=
  match name (cls self) with
  | Some n => Ok (upper n)
  | None => Raise (AttributeError "'NoneType' object has no attribute 'upper'")
  end.

(** [TransformPrimitive._get_name] *)
Definition TransformPrimitive_get_name (self : Primitive) : Res string :=
  n ← name_upper self;
  let name := n +:+ "(" in
  names ← mapM get_name (base_features self);
  let name := name +:+ String.concat ", " names in
  let name := name +:+ ")" in
  Ok name.

(** [TimeSincePrevious._get_name] *)
Definition TimeSincePrevious_get_name (self : Primitive) : Res string :=
  g ← group_feature_name self;
  Ok ("time_since_previous_by_" +:+ g).

(** [IsIn._get_name] *)
Definition IsIn_get_name (self : Primitive) : Res string :=
  b ← first_base_feature_name self;
  Ok (b +:+ ".isin(" +:+ py_str_list (list_of_outputs self) +:+ ")").

(** [Diff._get_name] *)
Definition Diff_get_name (self : Primitive) : Res string :=
  b ← first_base_feature_name self;
  g ← group_feature_name self;
  let base_features_str := b +:+ " by " +:+ g in
  n ← name_upper self;
  Ok (n +:+ "(" +:+ base_features_str +:+ ")").

(** [Not._get_name] *)
Definition Not_get_name (self : Primitive) : Res string :=
  b ← first_base_feature_name self;
  Ok ("NOT(" +:+ b +:+ ")").

(** [self._get_name()], by method resolution on the class of [self]. *)
Definition dispatch_get_name (self : Primitive) : Res string :=
  match cls self with
  | TimeSincePrevious => TimeSincePrevious_get_name self
  | IsIn => IsIn_get_name self
  | Diff => Diff_get_name self
  | Not => Not_get_name self
  | _ => TransformPrimitive_get_name self
  end.
End Naming.

(** Modelled from the spec: [PrimitiveBase.get_name] is not among the
    sources.  The spec: it returns the computed display name (no custom name
    has been memoized); a node from outside the module carries its name. *)
Fixpoint Feature_get_name (f : Feature) : Res string :=
  match f with
  | BaseFeature node => Ok (node_name node)
  | TransformFeature self => dispatch_get_name Feature_get_name self
  end.

Definition _get_name (self : Primitive) : Res string :=
  dispatch_get_name Feature_get_name self.

Definition get_name (self : Primitive) : Res string :=
  Feature_get_name (TransformFeature self).

(** ** Arrays and the pandas index types *)

(** Conversion of an int64 to float64 (exact below [2^53], rounded to
    nearest above; the magnitude is below [2^63]). *)
Definition Z_to_float (z : Z) : float :=
  match z with
  | Z0 => 0%float
  | Zpos _ => PrimFloat.of_uint63 (Uint63.of_Z z)
  | Zneg p => (- PrimFloat.of_uint63 (Uint63.of_Z (Zpos p)))%float
  end.

(** pandas holds a datetime and a timedelta as an int64 count of
    nanoseconds; the least int64 stands for the missing time, NaT.  It
    subtracts datetimes with overflow-checked int64 arithmetic: a difference
    that does not fit raises [OverflowError]. *)
Definition int64_min : Z := - 2 ^ 63.
Definition int64_max : Z := 2 ^ 63 - 1.

Definition int64_overflow : Exception := OverflowError "Overflow in int64 addition".

Definition checked_sub (x y : Z) : Res Z :=
  if bool_decide (int64_min ≤ x - y ≤ int64_max) then Ok (x - y)
  else Raise int64_overflow.

(** Negation of an int64 array by numpy, which wraps: the least int64 (NaT
    in an array of timedeltas) is its own negation. *)
Definition int64_neg (d : Z) : Z :=
  if bool_decide (d = int64_min) then int64_min else - d.

(** The [.values] of an index attribute, or the result of arithmetic on it:
    an int64 or a float64 numpy array. *)
Inductive ndarray : Type :=
  | Int64Array (xs : list Z)
  | Float64Array (xs : list float).

(** [array / d] and [array * d] for a scalar [d], by the true division of
    Python 3: an int64 array is first converted to float64. *)
Definition ndarray_floats (a : ndarray) : list float :=
  match a with
  | Int64Array xs => Z_to_float <$> xs
  | Float64Array xs => xs
  end.

Definition ndarray_div (a : ndarray) (d : float) : ndarray :=
  Float64Array ((λ x, x / d)%float <$> ndarray_floats a).

Definition ndarray_mul (a : ndarray) (d : float) : ndarray :=
  Float64Array ((λ x, x * d)%float <$> ndarray_floats a).

(** A datetime is a count of nanoseconds since the epoch and a timedelta a
    count of nanoseconds, as pandas stores them. *)
Inductive PdIndex : Type :=
  | DatetimeIndex (values : list Z)
  | TimedeltaIndex (values : list Z).

Definition ns_per_second : Z := 1000000000.
Definition ns_per_day : Z := 86400 * ns_per_second.

(** The components of a timedelta as [pandas.TimedeltaIndex] exposes them:
    [days] is the floor of the duration in days, [seconds] the whole seconds
    of the remainder (0 to 86399), and so on. *)
Definition TimedeltaIndex_getattr (attr : string) : option (Z → Z) :=
  if bool_decide (attr = "days") then Some (λ td, td `div` ns_per_day)
  else if bool_decide (attr = "seconds")
    then Some (λ td, (td `mod` ns_per_day) `div` ns_per_second)
  else if bool_decide (attr = "microseconds")
    then Some (λ td, (td `mod` ns_per_second) `div` 1000)
  else if bool_decide (attr = "nanoseconds") then Some (λ td, td `mod` 1000)
  else None.

Section TimeUnits.
(** The calendar accessors of [pandas.DatetimeIndex] ([year], [month],
    [day], [hour], [minute], [second], [week], [weekday]), which belong to
    pandas and are taken as given. *)
Variable DatetimeIndex_getattr : string → option (Z → Z).

(** [getattr(pd_index, time_unit).values] *)
Definition PdIndex_getattr (pd_index : PdIndex) (attr : string) : Res ndarray :=
  match pd_index with
  | DatetimeIndex values =>
      match DatetimeIndex_getattr attr with
      | Some acc => Ok (Int64Array (acc <$> values))
      | None => Raise (AttributeError attr)
      end
  | TimedeltaIndex values =>
      match TimedeltaIndex_getattr attr with
      | Some acc => Ok (Int64Array (acc <$> values))
      | None => Raise (AttributeError attr)
      end
  end.

(** [pd_time_unit(time_unit)(pd_index)]; the unit is [self.name] in the two
    base classes, which may be [None]. *)
Definition pd_time_unit (time_unit : option string) (pd_index : PdIndex) : Res ndarray :=
  match time_unit with
  | Some attr => PdIndex_getattr pd_index attr
  | None => Raise (TypeError "getattr(): attribute name must be string")
  end.

(** [DatetimeUnitBasePrimitive.get_function], applied to an array. *)
Definition DatetimeUnitBasePrimitive_get_function (self : Primitive)
    (array : list Z) : Res ndarray :=
  pd_time_unit (name (cls self)) (DatetimeIndex array).

(** [TimedeltaUnitBasePrimitive.get_function], applied to an array. *)
Definition TimedeltaUnitBasePrimitive_get_function (self : Primitive)
    (array : list Z) : Res ndarray :=
  pd_time_unit (name (cls self)) (TimedeltaIndex array).

Definition Hours_get_function (self : Primitive) (array : list Z) : Res ndarray :=
  v ← pd_time_unit (Some "seconds") (TimedeltaIndex array);
  Ok (ndarray_div v 3600).

Definition Minutes_get_function (self : Primitive) (array : list Z) : Res ndarray :=
  v ← pd_time_unit (Some "seconds") (TimedeltaIndex array);
  Ok (ndarray_div v 60).

Definition Weeks_get_function (self : Primitive) (array : list Z) : Res ndarray :=
  v ← pd_time_unit (Some "days") (TimedeltaIndex array);
  Ok (ndarray_div v 7).

Definition Months_get_function (self : Primitive) (array : list Z) : Res ndarray :=
  v ← pd_time_unit (Some "days") (TimedeltaIndex array);
  Ok (ndarray_mul v (12 / 365)).

Definition Years_get_function (self : Primitive) (array : list Z) : Res ndarray :=
  v ← pd_time_unit (Some "days") (TimedeltaIndex array);
  Ok (ndarray_div v 365).

(** [self.get_function()] for an instance of a class of the Timedelta unit
    family, by method resolution: Hours, Minutes, Weeks, Months and Years
    override the method, Days and Seconds inherit it. *)
Definition Timedelta_unit_get_function (self : Primitive) : list Z → Res ndarray :=
  match cls self with
  | Hours => Hours_get_function self
  | Minutes => Minutes_get_function self
  | Weeks => Weeks_get_function self
  | Months => Months_get_function self
  | Years => Years_get_function self
  | _ => TimedeltaUnitBasePrimitive_get_function self
  end.

(** [Weekend.get_function] *)
Definition Weekend_get_function (self : Primitive) (df : list Z) : Res (list bool) :=
  v ← pd_time_unit (Some "weekday") (DatetimeIndex df);
  match v with
  | Int64Array xs => Ok ((λ x, bool_decide (4 < x)) <$> xs)
  | Float64Array xs => Ok ((λ x, PrimFloat.ltb 4 x) <$> xs)
  end.

(** *** Primitives that use the calculation time *)

(** The names the module [datetime] of the standard library binds;
    [import datetime] binds the module itself to the name [datetime]. *)
Definition datetime_module : list string :=
  ["MAXYEAR"; "MINYEAR"; "UTC"; "date"; "datetime"; "datetime_CAPI";
   "time"; "timedelta"; "timezone"; "tzinfo"].

Definition module_getattr (module : list string) (module_name attr : string) : Res unit :=
  if bool_decide (attr ∈ module) then Ok ()
  else Raise (AttributeError
                ("module '" +:+ module_name +:+ "' has no attribute '" +:+ attr +:+ "'")).

(** [datetime.now()], where [datetime] is the module: the attribute is
    looked up in the module before anything is called.  [clock] is the
    wall-clock time at the call. *)
Definition datetime_now (clock : Z) : Res Z :=
  _ ← module_getattr datetime_module "datetime" "now";
  Ok clock.

(** [time - pd.DatetimeIndex(array)], a datetime minus an index: the index
    handles the reflected subtraction as [-(index - time)], subtracting
    with the overflow check and negating the result.  The result holds
    timedeltas. *)
Definition datetime_rsub (time : Z) (array : list Z) : Res (list Z) :=
  mapM (λ x, d ← checked_sub x time; Ok (int64_neg d)) array.

(** The function [pd_time_since] that [TimeSince.get_function] returns. *)
Definition pd_time_since (clock : Z) (array : list Z) (time : option Z) : Res (list Z) :=
  time ← match time with
         | None => datetime_now clock
         | Some t => Ok t
         end;
  datetime_rsub time array.

(** The function [pd_days_since] that [DaysSince.get_function] returns. *)
Definition pd_days_since (clock : Z) (array : list Z) (time : option Z) : Res ndarray :=
  time ← match time with
         | None => datetime_now clock
         | Some t => Ok t
         end;
  tds ← datetime_rsub time array;
  pd_time_unit (Some "days") (TimedeltaIndex tds).
End TimeUnits.

(** ** IsIn *)






(** ** Grouped differences: Diff and TimeSincePrevious *)

Section GroupByDiff.
Context {K V D : Type} `{EqDecision K}.

(** Subtraction of two values of the column and the missing-value
    sentinel of the result. *)
Variable sub : V → V → D.
Variable na : D.

(** A row of the frame: its index label, its base value and its group
    key ([None] is a null key). *)
Definition Row : Type := nat * (V * option K).

(** [pd.DataFrame.from_dict({bf_name: base_array, groupby: group_array})]:
    the rows are labelled 0, 1, ... in the order of the arrays. *)
Definition DataFrame_from_dict (base_array : list V) (group_array : list (option K))
    : Res (list Row) :=
  if bool_decide (length base_array = length group_array)
  then Ok (zip (seq 0 (length base_array)) (zip base_array group_array))
  else Raise (ValueError "arrays must all be same length").

(** [.groupby(groupby)]: one group for each key that occurs; the group of
    a key holds the rows with that key, in the order of the frame.  A row
    with a null key is in no group. *)
Definition group_keys (df : list Row) : list K :=
  remove_dups (omap (λ r : Row, r.2.2) df).

Definition get_group (df : list Row) (k : K) : list (nat * V) :=
  (λ r : Row, (r.1, r.2.1)) <$> filter (λ r : Row, r.2.2 = Some k) df.

(** [.diff()] on one group: the first row has no previous row; every other
    row gets its value minus the value of the row before it. *)
Fixpoint diff_from (prev : V) (g : list (nat * V)) : list (nat * D) :=
  match g with
  | [] => []
  | (i, v) :: g' => (i, sub v prev) :: diff_from v g'
  end.

Definition group_diff (g : list (nat * V)) : list (nat * D) :=
  match g with
  | [] => []
  | (i, v) :: g' => (i, na) :: diff_from v g'
  end.

(** The value at label [i] of a labelled column. *)
Fixpoint loc (i : nat) (s : list (nat * D)) : option D :=
  match s with
  | [] => None
  | (j, d) :: s' => if decide (j = i) then Some d else loc i s'
  end.

(** [df.groupby(groupby).diff()[bf_name]]: the results of the groups are
    put back at the labels of the frame, in its row order; a label that is
    in no group gets the missing value. *)
Definition groupby_diff (df : list Row) : list D :=
  let parts := concat ((λ k, group_diff (get_group df k)) <$> group_keys df) in
  (λ r : Row, default na (loc r.1 parts)) <$> df.

Definition grouped_diff (base_array : list V) (group_array : list (option K))
    : Res (list D) :=
  df ← DataFrame_from_dict base_array group_array;
  Ok (groupby_diff df).
End GroupByDiff.

(** The function [pd_diff] that [Diff.get_function] returns, on a float64
    column: the missing value is NaN. *)
Definition Diff_pd_diff {K} `{EqDecision K} (base_array : list float)
    (group_array : list (option K)) : Res (list float) :=
  grouped_diff PrimFloat.sub PrimFloat.nan base_array group_array.

(** Subtraction of two datetimes, either of which may be NaT ([None]), with
    the overflow check; the result is a timedelta or NaT.  A difference
    that is the least int64 is NaT. *)
Definition datetime_sub (a b : option Z) : Res (option Z) :=
  match a, b with
  | Some x, Some y =>
      d ← checked_sub x y;
      Ok (if bool_decide (d = int64_min) then None else Some d)
  | _, _ => Ok None
  end.

(** [Timedelta.total_seconds()]: the days and seconds of the timedelta, and
    its microseconds as a fraction, in float64; what is below a microsecond
    is dropped.  NaT gives NaN. *)
Definition total_seconds (td : option Z) : float :=
  match td with
  | Some ns =>
      let days := ns `div` ns_per_day in
      let seconds := (ns `mod` ns_per_day) `div` ns_per_second in
      let microseconds := (ns `mod` ns_per_second) `div` 1000 in
      (Z_to_float (days * 24 * 3600 + seconds)
       + Z_to_float microseconds / 1000000)%float
  | None => PrimFloat.nan
  end.

(** The function [pd_diff] that [TimeSincePrevious.get_function] returns.
    The differences of the rows are computed by [diff()] in one pass over
    the column, which raises when the difference of a row overflows. *)
Definition TimeSincePrevious_pd_diff {K} `{EqDecision K} (base_array : list (option Z))
    (group_array : list (option K)) : Res (list float) :=
  diffs ← grouped_diff datetime_sub (Ok None) base_array group_array;
  grouped_df ← mapM id diffs;
  Ok (List.map total_seconds grouped_df).

(** ** Vocabulary of the statements *)

(** The base features belong to exactly one owning entity: there is at least
    one of them, and one entity owns them all. *)
Definition one_owning_entity (bfs : list Feature) : Prop :=
  ∃ e : Entity, bfs ≠ [] ∧ ∀ f, f ∈ bfs → Feature_entity f = e.

(** The attributes [TransformPrimitive.__init__] has assigned when it reaches
    the entity check: the base features, and [expanding] when one of them is
    expanding. *)
Definition assigned (self : Primitive) (bfs : list Feature) : Primitive :=
  let self := set_base_features self bfs in
  if existsb Feature_expanding bfs then set_expanding self true else self.

Definition entity_mismatch : Exception :=
  AssertionError "More than one entity for base features".

Definition group_not_discrete : Exception :=
  AssertionError "group_feature must have a discrete variable_type".

(** ** Vocabulary of the naming statements *)

(** The classes that inherit [TransformPrimitive._get_name]. *)
Definition default_naming (c : PrimitiveClass) : bool :=
  match c with
  | TimeSincePrevious | IsIn | Diff | Not => false
  | _ => true
  end.

(** The display name in the words of the specification: the uppercased
    transformation name, then the comma-joined display names of the base
    features in parentheses. *)
Definition comma_joined (names : list string) : string :=
  match names with
  | [] => ""
  | n :: rest => n +:+ fold_right (λ m acc, ", " +:+ m +:+ acc) "" rest
  end.

Definition display_name (n : string) (names : list string) : string :=
  upper n +:+ "(" +:+ comma_joined names +:+ ")".

(** The string contains the separator [", "]. *)
Fixpoint has_separator (s : string) : bool :=
  match s with
  | EmptyString => false
  | String c s' =>
      (Ascii.eqb c "," &&
         match s' with
         | String d _ => Ascii.eqb d " "
         | EmptyString => false
         end)
      || has_separator s'
  end.

Definition separator_free (names : list string) : Prop :=
  Forall (λ s, has_separator s = false) names.

(** The result of a computation is a value, not an exception. *)
Definition is_Ok {A} (r : Res A) : Prop := ∃ a, r = Ok a.


(** An int64 value; the scalars of a list that are integers are int64. *)
Definition is_int64 (z : Z) : Prop := int64_min ≤ z ≤ int64_max.


(** ** Vocabulary of the grouped statements *)

(** Row [i] is the first row of the group of key [k]: it has key [k] and no
    earlier row has. *)
Definition first_of_group {K} (keys : list (option K)) (i : nat) (k : K) : Prop :=
  keys !! i = Some (Some k) ∧ ∀ j, (j < i)%nat → keys !! j ≠ Some (Some k).

(** Row [j] is the row immediately before row [i] in the group of key [k]:
    both have key [k], [j] comes first, and no row between them has key
    [k]. *)
Definition previous_in_group {K} (keys : list (option K)) (j i : nat) (k : K) : Prop :=
  (j < i)%nat ∧ keys !! j = Some (Some k) ∧ keys !! i = Some (Some k)
  ∧ ∀ m, (j < m < i)%nat → keys !! m ≠ Some (Some k).

(** The datetimes of a column lie less than [2^62] ns from the epoch, so
    that the difference of any two fits an int64. *)
Definition near_epoch (times : list (option Z)) : Prop :=
  ∀ t, Some t ∈ times → - 2 ^ 62 ≤ t < 2 ^ 62.

(** ** Sample features

    Columns of two entities, [transactions] and [customers], used to
    evaluate the definitions on concrete inputs. *)

Definition amount : Feature :=
  BaseFeature (mkFeatureNode "transactions" Numeric (PyInt 0) false "amount").

Definition transaction_time : Feature :=
  BaseFeature (mkFeatureNode "transactions" DatetimeTimeIndex PyNone false "transaction_time").

Definition upload_time : Feature :=
  BaseFeature (mkFeatureNode "transactions" DatetimeTimeIndex PyNone false "upload_time").

Definition customer_id : Feature :=
  BaseFeature (mkFeatureNode "transactions" Id PyNone false "customer_id").

Definition duration : Feature :=
  BaseFeature (mkFeatureNode "transactions" Timedelta PyNone false "duration").

Definition age : Feature :=
  BaseFeature (mkFeatureNode "customers" Numeric PyNone false "age").

(** An aggregation over a growing window, computed outside this module: an
    expanding feature of [transactions]. *)
Definition running_total : Feature :=
  BaseFeature (mkFeatureNode "transactions" Numeric (PyInt 0) true "running_total").

(** ** Vocabulary of the further statements *)

(** The string contains the character [c]. *)
Fixpoint has_char (c : ascii) (s : string) : bool :=
  match s with
  | EmptyString => false
  | String d s' => Ascii.eqb d c || has_char c s'
  end.

(** The classes whose display name has the form NAME(...): those that
    inherit the naming rule, and Not and Diff, whose own rules keep the
    form. *)
Definition parenthesised_naming (c : PrimitiveClass) : bool :=
  match c with
  | TimeSincePrevious | IsIn => false
  | _ => true
  end.

(** A class that sets its transformation name: every class of the module but
    the two unit base classes. *)
Definition concrete (c : PrimitiveClass) : bool :=
  match name c with
  | Some _ => true
  | None => false
  end.

(** The classes that define a constructor of their own. *)
Definition own_constructor (c : PrimitiveClass) : bool :=
  match c with
  | TimeSincePrevious | IsIn | Diff => true
  | _ => false
  end.

(** [built p args]: [p] is the instance that calling a class of the module
    on the positional arguments [args] returns (IsIn may take its membership
    list besides). *)
Inductive built : Primitive → list Arg → Prop :=
  | built_inherited (c : PrimitiveClass) (args : list Arg) (p : Primitive) :
      own_constructor c = false → new_transform c args = Ok p → built p args
  | built_IsIn (b : Arg) (l : option (list PyValue)) (p : Primitive) :
      new_IsIn b l = Ok p → built p [b]
  | built_Diff (b g : Arg) (p : Primitive) :
      new_Diff b g = Ok p → built p [b; g]
  | built_TimeSincePrevious (t g : Arg) (p : Primitive) :
      new_TimeSincePrevious t g = Ok p → built p [t; g].

(** A feature tree in which every instance is of a concrete class, has a
    base feature, and has a group feature where its naming rule reads
    one. *)
Fixpoint well_formed (f : Feature) : bool :=
  match f with
  | BaseFeature _ => true
  | TransformFeature self =>
      concrete (cls self)
      && match base_features self with
         | [] => false
         | _ :: _ => forallb well_formed (base_features self)
         end
      && match cls self with
         | TimeSincePrevious | Diff =>
             match group_feature self with
             | Some g => well_formed g
             | None => false
             end
         | _ => true
         end
  end.

Definition arg_well_formed (a : Arg) : bool :=
  match a with
  | ArgFeature f => well_formed f
  | ArgVariable _ => true
  | ArgOther => false
  end.

(** The concrete classes of the Timedelta unit family. *)
Definition timedelta_unit (c : PrimitiveClass) : bool :=
  match c with
  | Days | Hours | Seconds | Minutes | Weeks | Months | Years => true
  | _ => false
  end.

Definition length_mismatch : Exception :=
  ValueError "arrays must all be same length".

(** The features whose display names the naming rule of an instance puts
    into its own display name. *)
Definition displayed (self : Primitive) : list Feature :=
  match cls self with
  | TimeSincePrevious => option_list (group_feature self)
  | IsIn | Not => option_list (head (base_features self))
  | Diff => option_list (head (base_features self)) ++ option_list (group_feature self)
  | _ => base_features self
  end.

(** The difference of consecutive elements of an ungrouped column: the
    missing value first, then each element minus the one before it. *)
Definition plain_diff {V D} (sub : V → V → D) (na : D) (base : list V) : list D :=
  match base with
  | [] => []
  | _ :: rest => na :: zip_with sub rest base
  end.

(** The seconds from the datetime [t'] to the datetime [t]; the missing
    value when one of them is NaT. *)
Definition seconds_between (t t' : option Z) : float :=
  match t, t' with
  | Some a, Some b => total_seconds (Some (a - b))
  | _, _ => PrimFloat.nan
  end.

(** A column of whole seconds, in ascending order. *)
Definition ascending (secs : list Z) : Prop :=
  ∀ i a b, secs !! i = Some a → secs !! S i = Some b → a ≤ b.

(** * Properties *)

(** ** Construction: the entity check *)

Lemma entities_singleton (bfs : list Feature) (e : Entity) :
  bfs ≠ [] → (∀ f, f ∈ bfs → Feature_entity f = e) → entities bfs = {[ e ]}.
Proof.
  intros Hne Hall. unfold entities. apply set_eq. intros x.
  rewrite elem_of_list_to_set, list_elem_of_fmap, elem_of_singleton. split.
  - intros (f & -> & Hf). by apply Hall.
  - intros ->. destruct bfs as [|f0 bfs]; [done|].
    exists f0. split; [symmetry; apply Hall|]; left.
Qed.

Lemma size_entities_one (bfs : list Feature) :
  size (entities bfs) = 1%nat ↔ one_owning_entity bfs.
Proof.
  split.
  - intros Hsz. apply size_1_elem_of in Hsz as [e He]. exists e. split.
    + intros ->. unfold entities in He. simpl in He.
      assert (e ∈ (∅ : gset Entity)) as Hin by (rewrite He; by apply elem_of_singleton).
      by apply not_elem_of_empty in Hin.
    + intros f Hf. assert (Feature_entity f ∈ entities bfs) as Hin.
      { unfold entities. apply elem_of_list_to_set, list_elem_of_fmap. eauto. }
      rewrite He in Hin. by apply elem_of_singleton in Hin.
  - intros (e & Hne & Hall). rewrite (entities_singleton bfs e Hne Hall).
    apply size_singleton.
Qed.

(** The constructor once its arguments are coerced. *)
Lemma TransformPrimitive_init_coerced (self : Primitive) (args : list Arg)
    (bfs : list Feature) :
  mapM _check_feature args = Ok bfs →
  TransformPrimitive__init__ self args =
    if bool_decide (size (entities bfs) = 1%nat)
    then match bfs with
         | f0 :: _ => PrimitiveBase__init__ (assigned self bfs) (Feature_entity f0) bfs
         | [] => Raise (IndexError "list index out of range")
         end
    else Raise entity_mismatch.
Proof.
  intros Hargs. unfold TransformPrimitive__init__. rewrite Hargs. simpl.
  unfold assigned. simpl. by destruct (existsb Feature_expanding bfs).
Qed.

Lemma TransformPrimitive_init_mismatch (self : Primitive) (args : list Arg)
    (bfs : list Feature) :
  mapM _check_feature args = Ok bfs →
  ¬ one_owning_entity bfs →
  TransformPrimitive__init__ self args = Raise entity_mismatch.
Proof.
  intros Hargs Hno. rewrite (TransformPrimitive_init_coerced _ _ _ Hargs).
  rewrite bool_decide_eq_false_2; [done|]. by rewrite size_entities_one.
Qed.

Lemma TransformPrimitive_init_one_entity (self : Primitive) (args : list Arg)
    (bfs : list Feature) :
  mapM _check_feature args = Ok bfs →
  one_owning_entity bfs →
  ∃ f0, head bfs = Some f0 ∧
    TransformPrimitive__init__ self args =
      PrimitiveBase__init__ (assigned self bfs) (Feature_entity f0) bfs.
Proof.
  intros Hargs Hone. rewrite (TransformPrimitive_init_coerced _ _ _ Hargs).
  rewrite bool_decide_eq_true_2 by (by rewrite size_entities_one).
  destruct Hone as (e & Hne & _). destruct bfs as [|f0 bfs]; [done|]. eauto.
Qed.

Lemma two_entities_not_one (f g : Feature) (rest : list Feature) :
  Feature_entity f ≠ Feature_entity g → ¬ one_owning_entity (f :: g :: rest).
Proof.
  intros Hne (e & _ & Hall). apply Hne.
  rewrite (Hall f), (Hall g); [done| |]; set_solver.
Qed.

(** C1, as stated, fails for TimeSincePrevious: with a time index of
    [transactions] and a numeric group feature of [customers] the base
    features belong to two entities, and the constructor raises the
    group-feature assertion, which precedes the entity check. *)
Lemma TimeSincePrevious_mismatch_other_error :
  mapM _check_feature [ArgFeature transaction_time; ArgFeature age]
    = Ok [transaction_time; age]
  ∧ ¬ one_owning_entity [transaction_time; age]
  ∧ new_TimeSincePrevious (ArgFeature transaction_time) (ArgFeature age)
    = Raise group_not_discrete
  ∧ group_not_discrete ≠ entity_mismatch.
Proof.
  split; [reflexivity|]. split; [by apply two_entities_not_one|].
  split; [reflexivity|]. discriminate.
Qed.

(** C1 (amended).  Let the arguments of [TransformPrimitive.__init__] coerce
    to the base features [bfs].  If [bfs] do not all belong to exactly one
    owning entity the constructor raises the assertion "More than one entity
    for base features"; if they do, the check passes and construction
    continues with [PrimitiveBase.__init__] on the entity of the first base
    feature.  Every class reaches this constructor: the classes without a
    constructor of their own directly, IsIn and Diff after storing their
    extra attribute, and TimeSincePrevious only when its group feature has a
    Discrete kind; otherwise it raises the group-feature assertion first. *)
Theorem entity_check_of_constructors (self : Primitive) (args : list Arg)
    (bfs : list Feature) :
  mapM _check_feature args = Ok bfs →
  (¬ one_owning_entity bfs →
     TransformPrimitive__init__ self args = Raise entity_mismatch)
  ∧ (one_owning_entity bfs →
     ∃ f0, head bfs = Some f0 ∧
       TransformPrimitive__init__ self args =
         PrimitiveBase__init__ (assigned self bfs) (Feature_entity f0) bfs)
  ∧ (∀ c, new_transform c args = TransformPrimitive__init__ (object_new c) args)
  ∧ (∀ b l, args = [b] →
       new_IsIn b l =
         TransformPrimitive__init__ (set_list_of_outputs (object_new IsIn) l) args)
  ∧ (∀ b g gf, args = [b; g] → _check_feature g = Ok gf →
       new_Diff b g =
         TransformPrimitive__init__ (set_group_feature (object_new Diff) gf) args)
  ∧ (∀ t g gf, args = [t; ArgFeature gf] → _check_feature g = Ok gf →
       new_TimeSincePrevious t g =
         if issubclass (Feature_variable_type gf) Discrete
         then TransformPrimitive__init__
                (set_group_feature (object_new TimeSincePrevious) gf) args
         else Raise group_not_discrete).
Proof.
  intros Hargs. repeat split.
  - by apply TransformPrimitive_init_mismatch.
  - by apply TransformPrimitive_init_one_entity.
  - intros b l ->. reflexivity.
  - intros b g gf -> Hg. unfold new_Diff, Diff__init__. by rewrite Hg.
  - intros t g gf -> Hg. unfold new_TimeSincePrevious, TimeSincePrevious__init__.
    rewrite Hg. simpl. by destruct (issubclass _ _).
Qed.

(** Absolute over [amount] of [transactions] and [age] of [customers] is
    refused by the entity check; Diff over [amount] grouped by [customer_id],
    both of [transactions], passes it. *)
Lemma entity_check_of_constructors_witness :
  new_transform Absolute [ArgFeature amount; ArgFeature age] = Raise entity_mismatch
  ∧ ∃ p, new_Diff (ArgFeature amount) (ArgFeature customer_id) = Ok p
         ∧ entity p = "transactions".
Proof.
  split.
  - destruct (entity_check_of_constructors (object_new Absolute)
                [ArgFeature amount; ArgFeature age] [amount; age] eq_refl)
      as (Hbad & _ & Hnew & _).
    rewrite Hnew. apply Hbad. by apply two_entities_not_one.
  - destruct (entity_check_of_constructors
                (set_group_feature (object_new Diff) customer_id)
                [ArgFeature amount; ArgFeature customer_id] [amount; customer_id]
                eq_refl)
      as (_ & Hgood & _ & _ & Hdiff & _).
    rewrite (Hdiff (ArgFeature amount) (ArgFeature customer_id) customer_id eq_refl eq_refl).
    destruct Hgood as (f0 & Hf0 & ->).
    { exists "transactions". split; [done|]. intros f Hf.
      apply list_elem_of_In in Hf. simpl in Hf.
      destruct Hf as [<-|[<-|[]]]; reflexivity. }
    injection Hf0 as <-. eexists. split; reflexivity.
Defined.

(** ** What a successful construction leaves in the instance *)

Lemma PrimitiveBase_init_Ok (self : Primitive) (e : Entity) (bfs : list Feature)
    (p : Primitive) :
  PrimitiveBase__init__ self e bfs = Ok p →
  p = set_base_features (set_entity self e) bfs.
Proof.
  unfold PrimitiveBase__init__. simpl.
  destruct (existsb _ _); [|discriminate]. by intros [= <-].
Qed.

Lemma TransformPrimitive_init_Ok (self : Primitive) (args : list Arg) (p : Primitive) :
  TransformPrimitive__init__ self args = Ok p →
  ∃ bfs f0,
    mapM _check_feature args = Ok bfs ∧ head bfs = Some f0 ∧ one_owning_entity bfs
    ∧ p = set_base_features (set_entity (assigned self bfs) (Feature_entity f0)) bfs.
Proof.
  intros Hp. destruct (mapM _check_feature args) as [bfs|e] eqn:Hargs.
  - rewrite (TransformPrimitive_init_coerced _ _ _ Hargs) in Hp.
    case_bool_decide as Hsz; [|discriminate].
    destruct bfs as [|f0 bfs]; [discriminate|].
    exists (f0 :: bfs), f0. repeat split; [by apply size_entities_one|].
    by apply PrimitiveBase_init_Ok.
  - unfold TransformPrimitive__init__ in Hp. rewrite Hargs in Hp. discriminate.
Qed.

Lemma constructed_attributes (self : Primitive) (args : list Arg) (p : Primitive) :
  TransformPrimitive__init__ self args = Ok p →
  cls p = cls self ∧ group_feature p = group_feature self
  ∧ list_of_outputs p = list_of_outputs self
  ∧ mapM _check_feature args = Ok (base_features p)
  ∧ ∃ f0 rest, base_features p = f0 :: rest ∧ entity p = Feature_entity f0.
Proof.
  intros Hp. apply TransformPrimitive_init_Ok in Hp as (bfs & f0 & Hargs & Hhd & _ & ->).
  unfold assigned. destruct (existsb Feature_expanding bfs); simpl;
    (repeat split; [done|]); destruct bfs as [|f bfs]; simplify_eq/=; eauto.
Qed.

(** ** Display names *)

#[local] Arguments String.append : simpl nomatch.

Lemma append_assoc (a b c : string) : (a +:+ b) +:+ c = a +:+ (b +:+ c).
Proof. induction a as [|x a IH]; simpl; [done|]. f_equal. apply IH. Qed.

Lemma append_empty_r (a : string) : a +:+ "" = a.
Proof. induction a as [|x a IH]; simpl; [done|]. f_equal. apply IH. Qed.

Lemma append_cancel_l (a x y : string) : a +:+ x = a +:+ y → x = y.
Proof. induction a as [|c a IH]; simpl; [done|]. intros [= H]. by apply IH. Qed.

Lemma append_char_cancel_r (c : ascii) (x y : string) :
  x +:+ String c "" = y +:+ String c "" → x = y.
Proof.
  revert y. induction x as [|a x IH]; intros [|b y]; simpl; try done.
  - intros [= _ H]. by destruct y.
  - intros [= _ H]. by destruct x.
  - intros [= -> H]. f_equal. by apply IH.
Qed.

(** Python's [join] (here [String.concat]) is the comma-joined string of the
    specification. *)
Lemma concat_comma_joined (names : list string) :
  String.concat ", " names = comma_joined names.
Proof.
  destruct names as [|n rest]; [done|]. simpl.
  revert n. induction rest as [|m rest IH]; intros n; simpl.
  - by rewrite append_empty_r.
  - by rewrite IH.
Qed.

Lemma has_separator_append (a x : string) : has_separator (a +:+ ", " +:+ x) = true.
Proof.
  induction a as [|c a IH]; simpl in *; [done|]. rewrite IH. apply orb_true_r.
Qed.

(** A separator-free head is determined by the joined string. *)
Lemma separator_split (a b x y : string) :
  has_separator a = false → has_separator b = false →
  a +:+ ", " +:+ x = b +:+ ", " +:+ y → a = b ∧ x = y.
Proof.
  revert b. induction a as [|c a IH]; intros [|d b] Ha Hb; simpl.
  - by intros [= ->].
  - intros [= <- H]. simpl in Hb. destruct b as [|e b]; simpl in *.
    + discriminate.
    + injection H as <- _. discriminate.
  - intros [= -> H]. simpl in Ha. destruct a as [|e a]; simpl in *.
    + discriminate.
    + injection H as -> _. discriminate.
  - intros [= -> H]. simpl in Ha, Hb.
    apply orb_false_elim in Ha as [_ Ha]. apply orb_false_elim in Hb as [_ Hb].
    destruct (IH b Ha Hb H) as [-> ->]. done.
Qed.

Lemma concat_cons_cons (sep a b : string) (l : list string) :
  String.concat sep (a :: b :: l) = a +:+ sep +:+ String.concat sep (b :: l).
Proof. reflexivity. Qed.

(** On non-empty lists of separator-free names [join] is injective. *)
Lemma join_injective (l1 l2 : list string) :
  l1 ≠ [] → l2 ≠ [] → separator_free l1 → separator_free l2 →
  String.concat ", " l1 = String.concat ", " l2 → l1 = l2.
Proof.
  revert l2. induction l1 as [|a l1 IH]; intros [|b l2] H1 H2 F1 F2; try done.
  apply Forall_cons in F1 as [Ha F1]. apply Forall_cons in F2 as [Hb F2].
  destruct l1 as [|a' l1], l2 as [|b' l2].
  - simpl. by intros ->.
  - rewrite concat_cons_cons. simpl String.concat at 1. intros ->.
    by rewrite has_separator_append in Ha.
  - rewrite concat_cons_cons. simpl String.concat at 2. intros <-.
    by rewrite has_separator_append in Hb.
  - rewrite !concat_cons_cons. intros H.
    apply separator_split in H as [-> H]; [|done..].
    f_equal. by apply IH.
Qed.

Lemma mapM_Ok_length {A B} (f : A → Res B) (l : list A) (k : list B) :
  mapM f l = Ok k → length l = length k.
Proof.
  revert k. induction l as [|x l IH]; intros k; simpl.
  - by intros [= <-].
  - destruct (f x) as [y|e]; simpl; [|discriminate].
    destruct (mapM f l) as [k'|e]; simpl; [|discriminate].
    intros [= <-]. simpl. f_equal. by apply IH.
Qed.

Lemma default_naming_dispatch (self : Primitive) :
  default_naming (cls self) = true →
  get_name self = TransformPrimitive_get_name Feature_get_name self.
Proof.
  unfold get_name. simpl. unfold dispatch_get_name.
  by destruct (cls self).
Qed.

Lemma default_get_name (self : Primitive) (n : string) (names : list string) :
  default_naming (cls self) = true →
  name (cls self) = Some n →
  mapM Feature_get_name (base_features self) = Ok names →
  get_name self = Ok (display_name n names).
Proof.
  intros Hdef Hn Hnames. rewrite (default_naming_dispatch _ Hdef).
  unfold TransformPrimitive_get_name, name_upper. rewrite Hn. simpl.
  rewrite Hnames. simpl. unfold display_name.
  by rewrite concat_comma_joined, !append_assoc.
Qed.

Lemma display_name_inj (n : string) (l1 l2 : list string) :
  display_name n l1 = display_name n l2 → comma_joined l1 = comma_joined l2.
Proof.
  unfold display_name. intros H.
  apply (inj (String.app _)) in H. apply (inj (String.app _)) in H.
  by apply append_char_cancel_r in H.
Qed.

(** C2, as stated, fails twice.  Two IsNull instances over two different
    TimeSincePrevious features (over [transaction_time] and over
    [upload_time], both grouped by [customer_id]) differ in their base
    feature and have the same name.  And an instance of
    DatetimeUnitBasePrimitive is constructed, does not override the naming
    rule, and has no computed name. *)
Lemma default_names_collide :
  (∃ b1 b2 p q,
     new_TimeSincePrevious (ArgFeature transaction_time) (ArgFeature customer_id) = Ok b1
     ∧ new_TimeSincePrevious (ArgFeature upload_time) (ArgFeature customer_id) = Ok b2
     ∧ new_transform IsNull [ArgFeature (TransformFeature b1)] = Ok p
     ∧ new_transform IsNull [ArgFeature (TransformFeature b2)] = Ok q
     ∧ base_features p ≠ base_features q
     ∧ get_name p = Ok "IS_NULL(time_since_previous_by_customer_id)"
     ∧ get_name q = Ok "IS_NULL(time_since_previous_by_customer_id)")
  ∧ (∃ r,
     new_transform DatetimeUnitBasePrimitive [ArgFeature transaction_time] = Ok r
     ∧ default_naming (cls r) = true
     ∧ get_name r = Raise (AttributeError "'NoneType' object has no attribute 'upper'")).
Proof.
  split.
  - do 4 eexists. do 4 (split; [reflexivity|]).
    split; [discriminate|]. split; reflexivity.
  - eexists. split; [reflexivity|]. split; reflexivity.
Qed.

(** C2 (amended).  Let [p] and [q] be successfully constructed instances of
    one class that inherits the naming rule and sets the name [n], and let
    their base features have the display names [names_p] and [names_q].
    The computed name of [p] is the uppercased [n] followed by the joined
    names in parentheses.  Identical base features, or base features with
    identical names, give identical names; different lists of names, none
    of which contains the separator, give different names. *)
Theorem default_display_name (self1 self2 p q : Primitive) (args1 args2 : list Arg)
    (n : string) (names_p names_q : list string) :
  TransformPrimitive__init__ self1 args1 = Ok p →
  TransformPrimitive__init__ self2 args2 = Ok q →
  default_naming (cls p) = true → cls q = cls p →
  name (cls p) = Some n →
  mapM Feature_get_name (base_features p) = Ok names_p →
  mapM Feature_get_name (base_features q) = Ok names_q →
  get_name p = Ok (display_name n names_p)
  ∧ get_name q = Ok (display_name n names_q)
  ∧ (base_features p = base_features q → get_name p = get_name q)
  ∧ (names_p = names_q → get_name p = get_name q)
  ∧ (get_name p = get_name q → comma_joined names_p = comma_joined names_q)
  ∧ (separator_free names_p → separator_free names_q → names_p ≠ names_q →
       get_name p ≠ get_name q).
Proof.
  intros Hp Hq Hdef Hcls Hn Hnp Hnq.
  assert (get_name p = Ok (display_name n names_p)) as Gp
    by by apply default_get_name.
  assert (get_name q = Ok (display_name n names_q)) as Gq
    by (apply default_get_name; by rewrite ?Hcls).
  assert (get_name p = get_name q → comma_joined names_p = comma_joined names_q) as Hinj.
  { rewrite Gp, Gq. intros [= H]. by apply display_name_inj in H. }
  repeat split; try done.
  - intros Hbf. rewrite Gp, Gq. rewrite Hbf in Hnp. congruence.
  - intros ->. by rewrite Gp, Gq.
  - intros Fp Fq Hne Heq. apply Hne. apply Hinj in Heq.
    rewrite <- !concat_comma_joined in Heq.
    apply constructed_attributes in Hp as (_ & _ & _ & _ & f & rest & Hbp & _).
    apply constructed_attributes in Hq as (_ & _ & _ & _ & g & rest' & Hbq & _).
    apply mapM_Ok_length in Hnp, Hnq. rewrite Hbp in Hnp. rewrite Hbq in Hnq.
    apply join_injective; try done.
    + by destruct names_p.
    + by destruct names_q.
Qed.

(** IsNull over [amount] and [customer_id] is named
    IS_NULL(amount, customer_id), and its name differs from that of IsNull
    over [amount] and [transaction_time]. *)
Lemma default_display_name_witness :
  ∃ p q,
    new_transform IsNull [ArgFeature amount; ArgFeature customer_id] = Ok p
    ∧ new_transform IsNull [ArgFeature amount; ArgFeature transaction_time] = Ok q
    ∧ get_name p = Ok "IS_NULL(amount, customer_id)"
    ∧ get_name p ≠ get_name q.
Proof.
  do 2 eexists. do 2 (split; [reflexivity|]).
  match goal with
  | |- get_name ?p = _ ∧ get_name ?p ≠ get_name ?q =>
      destruct (default_display_name (object_new IsNull) (object_new IsNull) p q
                  [ArgFeature amount; ArgFeature customer_id]
                  [ArgFeature amount; ArgFeature transaction_time]
                  "is_null" ["amount"; "customer_id"] ["amount"; "transaction_time"]
                  eq_refl eq_refl eq_refl eq_refl eq_refl eq_refl eq_refl)
        as (Hp & _ & _ & _ & _ & Hne)
  end.
  split; [exact Hp|]. apply Hne.
  - by repeat constructor.
  - by repeat constructor.
  - discriminate.
Defined.

(** ** The default value *)

(** C6.  A successfully constructed transform primitive has a first base
    feature, and its [default_value] is the [default_value] of that feature.
    The attribute is derived: it depends on the base features of the
    instance only, and assigning to it raises, since the property has no
    setter. *)
Theorem default_value_of_first_base_feature (self p : Primitive) (args : list Arg) :
  TransformPrimitive__init__ self args = Ok p →
  (∃ f0 rest, base_features p = f0 :: rest
     ∧ default_value p = Feature_default_value f0)
  ∧ (∀ q : Primitive, base_features q = base_features p →
       default_value q = default_value p)
  ∧ (∀ v, property_set TransformPrimitive_default_value p v
            = Raise (AttributeError "can't set attribute")).
Proof.
  intros Hp. apply constructed_attributes in Hp as (_ & _ & _ & _ & f0 & rest & Hbf & _).
  split; [|split].
  - exists f0, rest. split; [done|].
    unfold default_value, property_get. simpl. by rewrite Hbf.
  - intros q Hq. unfold default_value, property_get. simpl. by rewrite Hq.
  - reflexivity.
Qed.

(** Absolute over [amount], whose default value is 0. *)
Lemma default_value_of_first_base_feature_witness :
  ∃ p, new_transform Absolute [ArgFeature amount] = Ok p
       ∧ default_value p = Ok (PyInt 0).
Proof.
  eexists. split; [reflexivity|].
  match goal with
  | |- default_value ?p = _ =>
      destruct (default_value_of_first_base_feature (object_new Absolute) p
                  [ArgFeature amount] eq_refl) as ((f0 & rest & Hbf & ->) & _)
  end.
  injection Hbf as <- _. reflexivity.
Defined.

(** ** TimeSincePrevious: the group feature and the name *)

Lemma TimeSincePrevious_group_feature (t g : Arg) (gf : Feature) (p : Primitive) :
  _check_feature g = Ok gf →
  new_TimeSincePrevious t g = Ok p →
  cls p = TimeSincePrevious ∧ group_feature p = Some gf.
Proof.
  intros Hg. unfold new_TimeSincePrevious, TimeSincePrevious__init__.
  rewrite Hg. simpl. destruct (issubclass _ _); [|discriminate].
  intros Hp. by apply constructed_attributes in Hp as (-> & -> & _).
Qed.

Lemma TimeSincePrevious_name (p : Primitive) (gf : Feature) :
  cls p = TimeSincePrevious → group_feature p = Some gf →
  get_name p = n ← Feature_get_name gf; Ok ("time_since_previous_by_" +:+ n).
Proof.
  intros Hc Hg. unfold get_name. simpl. unfold dispatch_get_name. rewrite Hc.
  unfold TimeSincePrevious_get_name, group_feature_name. by rewrite Hg.
Qed.

(** C7.  Let the group argument of TimeSincePrevious coerce to the feature
    [gf].  If the kind of [gf] is not a subtype of Discrete, construction
    raises the assertion "group_feature must have a discrete variable_type".
    If it is, the check passes: construction continues with
    [TransformPrimitive.__init__], and the display name of the constructed
    instance is time_since_previous_by_ followed by the name of [gf]. *)
Theorem TimeSincePrevious_group_must_be_discrete (t g : Arg) (gf : Feature) :
  _check_feature g = Ok gf →
  (issubclass (Feature_variable_type gf) Discrete = false →
     new_TimeSincePrevious t g = Raise group_not_discrete)
  ∧ (issubclass (Feature_variable_type gf) Discrete = true →
     new_TimeSincePrevious t g =
       TransformPrimitive__init__
         (set_group_feature (object_new TimeSincePrevious) gf) [t; ArgFeature gf]
     ∧ ∀ p gname, new_TimeSincePrevious t g = Ok p →
         Feature_get_name gf = Ok gname →
         get_name p = Ok ("time_since_previous_by_" +:+ gname)).
Proof.
  intros Hg. split.
  - intros Hd. unfold new_TimeSincePrevious, TimeSincePrevious__init__.
    rewrite Hg. simpl. by rewrite Hd.
  - intros Hd. split.
    + unfold new_TimeSincePrevious, TimeSincePrevious__init__.
      rewrite Hg. simpl. by rewrite Hd.
    + intros p gname Hp Hname.
      destruct (TimeSincePrevious_group_feature t g gf p Hg Hp) as [Hc Hgf].
      rewrite (TimeSincePrevious_name p gf Hc Hgf), Hname. reflexivity.
Qed.

(** Grouped by [customer_id], an Id, the instance is named
    time_since_previous_by_customer_id; grouped by [amount], a Numeric,
    construction is refused. *)
Lemma TimeSincePrevious_group_must_be_discrete_witness :
  (∃ p, new_TimeSincePrevious (ArgFeature transaction_time) (ArgFeature customer_id) = Ok p
        ∧ get_name p = Ok "time_since_previous_by_customer_id")
  ∧ new_TimeSincePrevious (ArgFeature transaction_time) (ArgFeature amount)
    = Raise group_not_discrete.
Proof.
  split.
  - eexists. split; [reflexivity|].
    destruct (TimeSincePrevious_group_must_be_discrete (ArgFeature transaction_time)
                (ArgFeature customer_id) customer_id eq_refl) as (_ & Hgood).
    destruct (Hgood eq_refl) as (_ & Hname).
    apply (Hname _ "customer_id"); reflexivity.
  - destruct (TimeSincePrevious_group_must_be_discrete (ArgFeature transaction_time)
                (ArgFeature amount) amount eq_refl) as (Hbad & _).
    apply Hbad. reflexivity.
Defined.

(** C10.  Two TimeSincePrevious instances constructed over the same group
    argument have the same display name, whatever their time indexes. *)
Theorem TimeSincePrevious_name_ignores_time_index (t1 t2 g : Arg) (p1 p2 : Primitive) :
  new_TimeSincePrevious t1 g = Ok p1 →
  new_TimeSincePrevious t2 g = Ok p2 →
  get_name p1 = get_name p2.
Proof.
  intros H1 H2. destruct (_check_feature g) as [gf|e] eqn:Hg.
  - destruct (TimeSincePrevious_group_feature t1 g gf p1 Hg H1) as [Hc1 Hg1].
    destruct (TimeSincePrevious_group_feature t2 g gf p2 Hg H2) as [Hc2 Hg2].
    by rewrite (TimeSincePrevious_name p1 gf Hc1 Hg1), (TimeSincePrevious_name p2 gf Hc2 Hg2).
  - unfold new_TimeSincePrevious, TimeSincePrevious__init__ in H1.
    rewrite Hg in H1. discriminate.
Qed.

(** Over [transaction_time] and over [upload_time], both grouped by
    [customer_id]: two instances with different base features and one
    name. *)
Lemma TimeSincePrevious_name_ignores_time_index_witness :
  ∃ p1 p2,
    new_TimeSincePrevious (ArgFeature transaction_time) (ArgFeature customer_id) = Ok p1
    ∧ new_TimeSincePrevious (ArgFeature upload_time) (ArgFeature customer_id) = Ok p2
    ∧ base_features p1 ≠ base_features p2
    ∧ get_name p1 = get_name p2.
Proof.
  do 2 eexists. do 2 (split; [reflexivity|]). split; [discriminate|].
  apply (TimeSincePrevious_name_ignores_time_index (ArgFeature transaction_time)
           (ArgFeature upload_time) (ArgFeature customer_id)); reflexivity.
Defined.

(** ** IsIn *)











(** ** The unit base classes *)

Lemma cls_assigned (self : Primitive) (bfs : list Feature) :
  cls (assigned self bfs) = cls self.
Proof. unfold assigned. by destruct (existsb _ _). Qed.

(** When the inherited constructor succeeds. *)
Lemma new_transform_is_Ok (c : PrimitiveClass) (args : list Arg) :
  is_Ok (new_transform c args) ↔
  ∃ bfs, mapM _check_feature args = Ok bfs ∧ one_owning_entity bfs
         ∧ existsb (matches_contract bfs) (input_types c) = true.
Proof.
  unfold new_transform, is_Ok. split.
  - intros [p Hp]. pose proof Hp as Hp'.
    apply TransformPrimitive_init_Ok in Hp' as (bfs & f0 & Hargs & Hhd & Hone & _).
    exists bfs. do 2 (split; [done|]).
    destruct (TransformPrimitive_init_one_entity (object_new c) _ _ Hargs Hone)
      as (f0' & _ & Heq).
    rewrite Heq in Hp. unfold PrimitiveBase__init__ in Hp. simpl in Hp.
    rewrite cls_assigned in Hp. simpl in Hp.
    by destruct (existsb _ _).
  - intros (bfs & Hargs & Hone & Hty).
    destruct (TransformPrimitive_init_one_entity (object_new c) _ _ Hargs Hone)
      as (f0 & _ & ->).
    unfold PrimitiveBase__init__. simpl. rewrite cls_assigned. simpl.
    rewrite Hty. eauto.
Qed.

Lemma new_transform_same_contract (c d : PrimitiveClass) (args : list Arg) :
  input_types c = input_types d →
  is_Ok (new_transform c args) ↔ is_Ok (new_transform d args).
Proof. intros Hin. by rewrite !new_transform_is_Ok, Hin. Qed.

(** C9, as stated, fails: each of the two base classes is constructed from a
    feature of the kind its contract accepts. *)
Lemma unit_base_classes_are_constructed :
  (∃ p, new_transform DatetimeUnitBasePrimitive [ArgFeature transaction_time] = Ok p
        ∧ cls p = DatetimeUnitBasePrimitive)
  ∧ (∃ p, new_transform TimedeltaUnitBasePrimitive [ArgFeature duration] = Ok p
        ∧ cls p = TimedeltaUnitBasePrimitive).
Proof. split; eexists; split; reflexivity. Qed.

(** C9 (amended).  The two unit base classes set [name] to [None] and have
    no guard of their own: constructing one succeeds exactly when
    constructing a concrete unit subclass (Day, Days) from the same
    arguments does.  An instance of a base class has no display name, and
    the function of its [get_function] raises on every array, because the
    unit name it looks up is [None]. *)
Theorem unit_base_classes (DatetimeIndex_getattr : string → option (Z → Z))
    (c : PrimitiveClass) (args : list Arg) (p : Primitive) (array : list Z) :
  c = DatetimeUnitBasePrimitive ∨ c = TimedeltaUnitBasePrimitive →
  new_transform c args = Ok p →
  name c = None
  ∧ (is_Ok (new_transform DatetimeUnitBasePrimitive args)
       ↔ is_Ok (new_transform Day args))
  ∧ (is_Ok (new_transform TimedeltaUnitBasePrimitive args)
       ↔ is_Ok (new_transform Days args))
  ∧ get_name p = Raise (AttributeError "'NoneType' object has no attribute 'upper'")
  ∧ (c = DatetimeUnitBasePrimitive →
       DatetimeUnitBasePrimitive_get_function DatetimeIndex_getattr p array
       = Raise (TypeError "getattr(): attribute name must be string"))
  ∧ (c = TimedeltaUnitBasePrimitive →
       Timedelta_unit_get_function DatetimeIndex_getattr p array
       = Raise (TypeError "getattr(): attribute name must be string")).
Proof.
  intros Hc Hp. unfold new_transform in Hp.
  apply constructed_attributes in Hp as (Hcls & _). simpl in Hcls.
  split; [by destruct Hc as [-> | ->]|].
  split; [by apply new_transform_same_contract|].
  split; [by apply new_transform_same_contract|].
  split; [|split].
  - unfold get_name. simpl. unfold dispatch_get_name. rewrite Hcls.
    destruct Hc as [-> | ->]; unfold TransformPrimitive_get_name, name_upper;
      by rewrite Hcls.
  - intros ->. unfold DatetimeUnitBasePrimitive_get_function. by rewrite Hcls.
  - intros ->. unfold Timedelta_unit_get_function. rewrite Hcls.
    unfold TimedeltaUnitBasePrimitive_get_function. by rewrite Hcls.
Qed.

(** DatetimeUnitBasePrimitive over [transaction_time]: constructed, without
    a display name, and with a function that raises. *)
Lemma unit_base_classes_witness :
  ∃ p, new_transform DatetimeUnitBasePrimitive [ArgFeature transaction_time] = Ok p
       ∧ get_name p = Raise (AttributeError "'NoneType' object has no attribute 'upper'")
       ∧ DatetimeUnitBasePrimitive_get_function (λ _, None) p [0; 1]
         = Raise (TypeError "getattr(): attribute name must be string").
Proof.
  eexists. split; [reflexivity|].
  match goal with
  | |- get_name ?p = _ ∧ _ =>
      destruct (unit_base_classes (λ _, None) DatetimeUnitBasePrimitive
                  [ArgFeature transaction_time] p [0; 1] (or_introl eq_refl) eq_refl)
        as (_ & _ & _ & Hname & Hfun & _)
  end.
  split; [exact Hname|]. by apply Hfun.
Defined.

(** ** The Timedelta unit family *)

(** C5 (the code at the failing input).  On an array of timedeltas, Days
    returns the whole days of each timedelta and Seconds the whole seconds
    of what is left of it after its days, from 0 to 86399.  Hours and
    Minutes divide these seconds by 3600 and by 60, and Weeks, Months and
    Years divide the days by 7, multiply them by 12/365 and divide them by
    365, in float64 arithmetic.  A timedelta of exactly 3600 seconds gives
    1.0 hours, one of exactly 86400 seconds gives 1 day, and one of exactly
    604800 seconds gives 1.0 weeks.  A timedelta of 90000 seconds, which is
    25 hours and 1500 minutes, gives 1.0 hours and 60.0 minutes: its day is
    lost.  Timedeltas of 365 and 730 days give 365 * (12 / 365) months, short
    of 12, and 2.0 years. *)
Theorem timedelta_unit_conversions (DatetimeIndex_getattr : string → option (Z → Z))
    (self : Primitive) (array : list Z) :
  let f := Timedelta_unit_get_function DatetimeIndex_getattr self in
  let days := λ td, td `div` ns_per_day in
  let seconds := λ td, (td `mod` ns_per_day) `div` ns_per_second in
  (cls self = Days → f array = Ok (Int64Array (days <$> array)))
  ∧ (cls self = Seconds → f array = Ok (Int64Array (seconds <$> array)))
  ∧ (cls self = Hours →
       f array = Ok (Float64Array ((λ td, Z_to_float (seconds td) / 3600)%float <$> array)))
  ∧ (cls self = Minutes →
       f array = Ok (Float64Array ((λ td, Z_to_float (seconds td) / 60)%float <$> array)))
  ∧ (cls self = Weeks →
       f array = Ok (Float64Array ((λ td, Z_to_float (days td) / 7)%float <$> array)))
  ∧ (cls self = Months →
       f array
       = Ok (Float64Array ((λ td, Z_to_float (days td) * (12 / 365))%float <$> array)))
  ∧ (cls self = Years →
       f array = Ok (Float64Array ((λ td, Z_to_float (days td) / 365)%float <$> array)))
  ∧ (cls self = Hours → f [3600 * ns_per_second] = Ok (Float64Array [1%float]))
  ∧ (cls self = Days → f [86400 * ns_per_second] = Ok (Int64Array [1]))
  ∧ (cls self = Weeks → f [604800 * ns_per_second] = Ok (Float64Array [1%float]))
  ∧ (cls self = Hours → f [90000 * ns_per_second] = Ok (Float64Array [1%float]))
  ∧ (cls self = Minutes → f [90000 * ns_per_second] = Ok (Float64Array [60%float]))
  ∧ (cls self = Months →
       f [365 * ns_per_day] = Ok (Float64Array [(365 * (12 / 365))%float])
       ∧ PrimFloat.ltb (365 * (12 / 365)) 12 = true)
  ∧ (cls self = Years → f [730 * ns_per_day] = Ok (Float64Array [2%float])).
Proof.
  intros f days seconds. subst f days seconds.
  unfold Timedelta_unit_get_function.
  repeat split; intros; repeat split;
    match goal with
    | Hc : cls self = _ |- _ =>
        rewrite ?Hc;
        first [ reflexivity
              | unfold TimedeltaUnitBasePrimitive_get_function; rewrite Hc; reflexivity
              | unfold Hours_get_function, Minutes_get_function, Weeks_get_function,
                  Months_get_function, Years_get_function; simpl;
                unfold ndarray_div, ndarray_mul; simpl;
                by rewrite <- !list_fmap_compose ]
    end.
Qed.

(** The seconds of a timedelta are those of its last, incomplete day.  A
    timedelta of 90000 seconds (one day and one hour) has 1 day and 3600
    seconds: Days returns 1, Seconds returns 3600 and Hours returns 1.0. *)
Lemma Hours_counts_within_the_day (DatetimeIndex_getattr : string → option (Z → Z))
    (self : Primitive) :
  let f := Timedelta_unit_get_function DatetimeIndex_getattr self in
  (cls self = Days → f [90000 * ns_per_second] = Ok (Int64Array [1]))
  ∧ (cls self = Seconds → f [90000 * ns_per_second] = Ok (Int64Array [3600]))
  ∧ (cls self = Hours → f [90000 * ns_per_second] = Ok (Float64Array [1%float])).
Proof.
  intros f. subst f. unfold Timedelta_unit_get_function.
  repeat split; intros Hc; rewrite Hc;
    first [ reflexivity
          | unfold TimedeltaUnitBasePrimitive_get_function; rewrite Hc; reflexivity ].
Qed.

(** ** TimeSince and DaysSince without a reference time *)

Lemma mapM_Raise {A B} (f : A → Res B) (l : list A) (e : Exception) :
  Forall (λ x, is_Ok (f x) ∨ f x = Raise e) l →
  Exists (λ x, f x = Raise e) l →
  mapM f l = Raise e.
Proof.
  induction l as [|x l IH]; intros Hall Hex; [by apply Exists_nil in Hex|].
  apply Forall_cons in Hall as [Hx Hall]. simpl.
  destruct Hx as [[y Hy]|Hx]; [|by rewrite Hx].
  rewrite Hy. simpl. apply Exists_cons in Hex as [Hex|Hex]; [congruence|].
  by rewrite (IH Hall Hex).
Qed.

Lemma checked_sub_cases (x y : Z) :
  (int64_min ≤ x - y ≤ int64_max ∧ checked_sub x y = Ok (x - y))
  ∨ (¬ int64_min ≤ x - y ≤ int64_max ∧ checked_sub x y = Raise int64_overflow).
Proof. unfold checked_sub. case_bool_decide; auto. Qed.

(** The durations that fit: the reflected subtraction returns them. *)
Lemma datetime_rsub_Ok (t : Z) (array : list Z) :
  Forall (λ x, - 2 ^ 63 < t - x < 2 ^ 63) array →
  datetime_rsub t array = Ok ((λ x, t - x) <$> array).
Proof.
  unfold datetime_rsub. induction 1 as [|x l Hx _ IH]; [done|].
  simpl. rewrite IH.
  destruct (checked_sub_cases x t) as [[_ ->]|[Hno _]];
    [|unfold int64_min, int64_max in Hno; lia].
  simpl. unfold int64_neg. rewrite bool_decide_eq_false_2
    by (unfold int64_min; lia).
  simpl. do 3 f_equal. lia.
Qed.

(** A duration of more than [2^63] ns in either direction: the reflected
    subtraction raises. *)
Lemma datetime_rsub_overflow (t : Z) (array : list Z) :
  Exists (λ x, 2 ^ 63 < Z.abs (t - x)) array →
  datetime_rsub t array = Raise int64_overflow.
Proof.
  intros Hex. unfold datetime_rsub. apply mapM_Raise.
  - apply Forall_forall. intros x _.
    destruct (checked_sub_cases x t) as [[_ ->]|[_ ->]]; [left; by eexists|by right].
  - eapply Exists_impl; [exact Hex|]. intros x Hx. simpl in Hx.
    destruct (checked_sub_cases x t) as [[Hin _]|[_ ->]]; [|done].
    unfold int64_min, int64_max in Hin. lia.
Qed.

(** C4 (the code at the failing input).  Whatever the clock shows and
    whatever the array holds, the functions of TimeSince and DaysSince raise
    [AttributeError] when the reference time is [None]: the module
    [datetime] has no attribute [now].  With a reference time they return
    the durations, in nanoseconds and in whole days, when every duration is
    within [2^63] ns, and raise [OverflowError] when one is beyond it. *)
Theorem calc_time_default_raises (DatetimeIndex_getattr : string → option (Z → Z))
    (clock : Z) (array : list Z) (t : Z) :
  pd_time_since clock array None
    = Raise (AttributeError "module 'datetime' has no attribute 'now'")
  ∧ pd_days_since DatetimeIndex_getattr clock array None
    = Raise (AttributeError "module 'datetime' has no attribute 'now'")
  ∧ (Forall (λ x, - 2 ^ 63 < t - x < 2 ^ 63) array →
       pd_time_since clock array (Some t) = Ok ((λ x, t - x) <$> array)
       ∧ pd_days_since DatetimeIndex_getattr clock array (Some t)
         = Ok (Int64Array ((λ x, (t - x) `div` ns_per_day) <$> array)))
  ∧ (Exists (λ x, 2 ^ 63 < Z.abs (t - x)) array →
       pd_time_since clock array (Some t) = Raise int64_overflow
       ∧ pd_days_since DatetimeIndex_getattr clock array (Some t)
         = Raise int64_overflow).
Proof.
  split; [done|]. split; [done|]. split.
  - intros Hfit. unfold pd_time_since, pd_days_since. simpl.
    rewrite (datetime_rsub_Ok t array Hfit). split; [done|].
    simpl. by rewrite <- list_fmap_compose.
  - intros Hover. unfold pd_time_since, pd_days_since. simpl.
    by rewrite (datetime_rsub_overflow t array Hover).
Qed.

(** ** Grouped differences *)

Section GroupByDiffFacts.
Context {K V D : Type} `{EqDecision K}.
Variable sub : V → V → D.
Variable na : D.

Local Abbreviation diff_from := (diff_from sub).
Local Abbreviation group_diff := (group_diff sub na).
Local Abbreviation groupby_diff := (groupby_diff sub na).
Local Abbreviation Row := (nat * (V * option K))%type.

(** *** Labelled columns *)

Lemma loc_app (i : nat) (s1 s2 : list (nat * D)) :
  loc i (s1 ++ s2) = match loc i s1 with Some d => Some d | None => loc i s2 end.
Proof.
  induction s1 as [|[j d] s1 IH]; simpl; [done|]. by destruct (decide (j = i)).
Qed.

Lemma loc_not_label (i : nat) (s : list (nat * D)) :
  i ∉ s.*1 → loc i s = None.
Proof.
  induction s as [|[j d] s IH]; simpl; [done|].
  intros Hi. apply not_elem_of_cons in Hi as [Hne Hi].
  destruct (decide (j = i)) as [->|_]; [done|]. by apply IH.
Qed.

(** *** The difference of one group *)

Lemma diff_from_labels (prev : V) (g : list (nat * V)) :
  (diff_from prev g).*1 = g.*1.
Proof.
  revert prev. induction g as [|[i v] g IH]; intros prev; simpl; [done|].
  by rewrite IH.
Qed.

Lemma group_diff_labels (g : list (nat * V)) : (group_diff g).*1 = g.*1.
Proof. destruct g as [|[i v] g]; simpl; [done|]. by rewrite diff_from_labels. Qed.

Lemma diff_from_app (prev : V) (g1 g2 : list (nat * V)) :
  diff_from prev (g1 ++ g2)
  = diff_from prev g1 ++ diff_from (from_option snd prev (last g1)) g2.
Proof.
  revert prev. induction g1 as [|[i v] g1 IH]; intros prev; simpl; [done|].
  rewrite IH.
  assert (from_option snd v (last g1) = from_option snd prev (last ((i, v) :: g1)))
    as ->; [|done].
  destruct g1 as [|x g1]; [done|]. rewrite last_cons_cons.
  destruct (last (x :: g1)) eqn:Hl; [done|]. by apply last_None in Hl.
Qed.

(** The row at label [i] of a group gets the missing value when it is the
    first of the group, and otherwise its value minus that of the row before
    it. *)
Lemma loc_group_diff (g1 g2 : list (nat * V)) (i : nat) (v : V) :
  i ∉ g1.*1 →
  loc i (group_diff (g1 ++ (i, v) :: g2))
  = Some (match last g1 with
          | None => na
          | Some (_, vj) => sub v vj
          end).
Proof.
  intros Hi. destruct g1 as [|[j vj] g1]; simpl.
  - by rewrite decide_True.
  - apply not_elem_of_cons in Hi as [Hne Hi].
    rewrite decide_False by done. rewrite diff_from_app, loc_app.
    rewrite loc_not_label by by rewrite diff_from_labels.
    simpl. rewrite decide_True by done. f_equal.
    destruct g1 as [|x g1]; [done|]. rewrite last_cons_cons.
    destruct (last (x :: g1)) as [[m vm]|] eqn:Hl; [done|].
    by apply last_None in Hl.
Qed.

(** *** The groups of a frame *)

Lemma get_group_app (df1 df2 : list Row) (k : K) :
  get_group (df1 ++ df2) k = get_group df1 k ++ get_group df2 k.
Proof. unfold get_group. by rewrite filter_app, fmap_app. Qed.

Lemma get_group_cons_key (i : nat) (v : V) (df : list Row) (k : K) :
  get_group ((i, (v, Some k)) :: df) k = (i, v) :: get_group df k.
Proof. unfold get_group. by rewrite filter_cons_True. Qed.

Lemma get_group_cons_other (r : Row) (df : list Row) (k : K) :
  r.2.2 ≠ Some k → get_group (r :: df) k = get_group df k.
Proof. intros Hr. unfold get_group. by rewrite filter_cons_False. Qed.

Lemma get_group_labels (df : list Row) (k : K) (i : nat) :
  i ∈ (get_group df k).*1 → ∃ v, (i, (v, Some k)) ∈ df.
Proof.
  unfold get_group. rewrite <- list_fmap_compose.
  intros ([j [v ko]] & -> & Hr)%list_elem_of_fmap.
  apply list_elem_of_filter in Hr as [Hk Hr]. simpl in *. subst ko. eauto.
Qed.

Lemma get_group_labels_sub (df : list Row) (k : K) (i : nat) :
  i ∈ (get_group df k).*1 → i ∈ df.*1.
Proof.
  intros [v Hv]%get_group_labels. apply list_elem_of_fmap. by exists (i, (v, Some k)).
Qed.

(** A label occurs in the group of its row's key only. *)
Lemma label_not_in_other_group (df : list Row) (i : nat) (v : V) (ko : option K)
    (k' : K) :
  NoDup df.*1 → (i, (v, ko)) ∈ df → ko ≠ Some k' →
  i ∉ (get_group df k').*1.
Proof.
  intros Hnd Hrow Hne [v' Hv']%get_group_labels.
  apply list_elem_of_lookup in Hrow as [a Ha]. apply list_elem_of_lookup in Hv' as [b Hb].
  assert (a = b) as ->.
  { eapply NoDup_lookup; [exact Hnd| |]; rewrite list_lookup_fmap.
    - by rewrite Ha. - by rewrite Hb. }
  rewrite Ha in Hb. by simplify_eq.
Qed.

(** *** Putting the groups back *)

Lemma loc_concat_other (i : nat) (f : K → list (nat * D)) (ks : list K) :
  (∀ k, k ∈ ks → i ∉ (f k).*1) → loc i (concat (f <$> ks)) = None.
Proof.
  induction ks as [|k ks IH]; intros Hks; simpl; [done|].
  rewrite loc_app, loc_not_label by (apply Hks; left).
  apply IH. intros k' Hk'. apply Hks. by right.
Qed.

Lemma loc_concat_group (i : nat) (f : K → list (nat * D)) (ks : list K) (k : K) (d : D) :
  k ∈ ks → (∀ k', k' ∈ ks → k' ≠ k → i ∉ (f k').*1) → loc i (f k) = Some d →
  loc i (concat (f <$> ks)) = Some d.
Proof.
  intros Hk Hother Hd. induction ks as [|k0 ks IH]; [by apply elem_of_nil in Hk|].
  simpl. rewrite loc_app. destruct (decide (k0 = k)) as [->|Hne].
  - by rewrite Hd.
  - rewrite loc_not_label by (apply Hother; [left|done]).
    apply IH.
    + apply elem_of_cons in Hk as [->|Hk]; done.
    + intros k' Hk'. apply Hother. by right.
Qed.

(** The result at a row of the frame. *)
Lemma groupby_diff_row (df1 df2 : list Row) (i : nat) (v : V) (ko : option K) :
  NoDup (df1 ++ (i, (v, ko)) :: df2).*1 →
  groupby_diff (df1 ++ (i, (v, ko)) :: df2) !! length df1
  = Some (match ko with
          | None => na
          | Some k =>
              match last (get_group df1 k) with
              | None => na
              | Some (_, vj) => sub v vj
              end
          end).
Proof.
  intros Hnd. set (df := df1 ++ (i, (v, ko)) :: df2) in *.
  assert ((i, (v, ko)) ∈ df) as Hrow by (apply elem_of_app; right; left).
  unfold groupby_diff. rewrite list_lookup_fmap.
  replace (df !! length df1) with (Some (i, (v, ko)))
    by (subst df; by rewrite list_lookup_middle).
  simpl. f_equal. destruct ko as [k|].
  - erewrite loc_concat_group; [done| | |].
    + unfold group_keys. apply elem_of_remove_dups, list_elem_of_omap.
      by exists (i, (v, Some k)).
    + intros k' _ Hne. rewrite group_diff_labels.
      eapply label_not_in_other_group; [done..|]. congruence.
    + subst df. rewrite get_group_app, get_group_cons_key.
      apply loc_group_diff. intros Hin%get_group_labels_sub.
      rewrite fmap_app in Hnd. apply NoDup_app in Hnd as (_ & Hnd & _).
      apply (Hnd i Hin). left.
  - rewrite loc_concat_other; [done|].
    intros k _. rewrite group_diff_labels.
    by eapply label_not_in_other_group.
Qed.
End GroupByDiffFacts.

Section GroupedDiffRows.
Context {K V D : Type} `{EqDecision K}.
Variable sub : V → V → D.
Variable na : D.

Local Abbreviation Row := (nat * (V * option K))%type.

Lemma get_group_nil (df : list Row) (k : K) :
  (∀ r, r ∈ df → r.2.2 ≠ Some k) → get_group df k = [].
Proof.
  induction df as [|r df IH]; intros Hdf; [done|].
  rewrite get_group_cons_other by (apply Hdf; left).
  apply IH. intros r' Hr'. apply Hdf. by right.
Qed.

(** The frame of two arrays of one length: row [i] carries the label [i],
    the value [base !! i] and the key [keys !! i]. *)
Lemma frame_lookup (base : list V) (keys : list (option K)) (i : nat) (r : Row) :
  zip (seq 0 (length base)) (zip base keys) !! i = Some r ↔
  ∃ v ko, r = (i, (v, ko)) ∧ base !! i = Some v ∧ keys !! i = Some ko.
Proof.
  split.
  - intros (a & [v ko] & -> & Ha & Hb)%lookup_zip_with_Some.
    apply lookup_zip_with_Some in Hb as (v' & ko' & [= <- <-] & Hv & Hko).
    apply lookup_seq in Ha as [-> _]. by exists v, ko.
  - intros (v & ko & -> & Hv & Hko). apply lookup_zip_with_Some.
    exists i, (v, ko). split; [done|]. split.
    + apply lookup_seq. split; [done|]. by apply lookup_lt_Some in Hv.
    + apply lookup_zip_with_Some. by exists v, ko.
Qed.

Lemma frame_labels (base : list V) (keys : list (option K)) :
  length base = length keys →
  (zip (seq 0 (length base)) (zip base keys)).*1 = seq 0 (length base).
Proof.
  intros Hlen. apply fst_zip. rewrite length_seq, length_zip. lia.
Qed.

Lemma frame_length (base : list V) (keys : list (option K)) :
  length base = length keys →
  length (zip (seq 0 (length base)) (zip base keys)) = length base.
Proof. intros Hlen. rewrite !length_zip, length_seq. lia. Qed.

(** The result at row [i], in terms of the rows before it. *)
Lemma grouped_diff_lookup (base : list V) (keys : list (option K)) (out : list D)
    (i : nat) (v : V) (ko : option K) :
  grouped_diff sub na base keys = Ok out →
  base !! i = Some v → keys !! i = Some ko →
  out !! i
  = Some (match ko with
          | None => na
          | Some k =>
              match last (get_group
                            (take i (zip (seq 0 (length base)) (zip base keys))) k) with
              | None => na
              | Some (_, vj) => sub v vj
              end
          end).
Proof.
  unfold grouped_diff, DataFrame_from_dict. case_bool_decide as Hlen; [|discriminate].
  simpl. intros [= <-] Hv Hko.
  set (df := zip (seq 0 (length base)) (zip base keys)).
  assert (df !! i = Some (i, (v, ko))) as Hrow by (apply frame_lookup; eauto).
  assert (length (take i df) = i) as Hi.
  { rewrite length_take. apply lookup_lt_Some in Hrow. lia. }
  pose proof (groupby_diff_row sub na (take i df) (drop (S i) df) i v ko) as Hgd.
  rewrite (take_drop_middle df i _ Hrow), Hi in Hgd. apply Hgd.
  subst df. rewrite frame_labels by done. apply NoDup_seq.
Qed.

Lemma frame_take_keys (base : list V) (keys : list (option K)) (i : nat) (r : Row) :
  r ∈ take i (zip (seq 0 (length base)) (zip base keys)) →
  ∃ j, (j < i)%nat ∧ r.1 = j ∧ keys !! j = Some r.2.2.
Proof.
  intros [j Hj]%list_elem_of_lookup. apply lookup_take_Some in Hj as [Hj Hlt].
  apply frame_lookup in Hj as (v & ko & -> & _ & Hko). by exists j.
Qed.

(** The rows of a grouped difference: the output is aligned with the input;
    a row with a null key and the first row of a group get the missing
    value; any other row gets its value minus the value of the row before it
    in its group. *)
Lemma grouped_diff_rows (base : list V) (keys : list (option K)) (out : list D) :
  grouped_diff sub na base keys = Ok out →
  length out = length base
  ∧ (∀ i, keys !! i = Some None → out !! i = Some na)
  ∧ (∀ i k, first_of_group keys i k → out !! i = Some na)
  ∧ (∀ i j k v vj, previous_in_group keys j i k →
       base !! i = Some v → base !! j = Some vj → out !! i = Some (sub v vj)).
Proof.
  intros Hout.
  assert (length base = length keys) as Hlen.
  { unfold grouped_diff, DataFrame_from_dict in Hout. by case_bool_decide. }
  assert (∀ i ko, keys !! i = Some ko → ∃ v, base !! i = Some v) as Hbase.
  { intros i ko Hko. apply lookup_lt_is_Some. rewrite Hlen. by eapply lookup_lt_Some. }
  split; [|split; [|split]].
  - unfold grouped_diff, DataFrame_from_dict in Hout.
    rewrite bool_decide_eq_true_2 in Hout by done. simpl in Hout.
    injection Hout as <-. unfold groupby_diff. by rewrite length_fmap, frame_length.
  - intros i Hko. destruct (Hbase _ _ Hko) as [v Hv].
    by rewrite (grouped_diff_lookup _ _ _ _ _ _ Hout Hv Hko).
  - intros i k [Hko Hfirst]. destruct (Hbase _ _ Hko) as [v Hv].
    rewrite (grouped_diff_lookup _ _ _ _ _ _ Hout Hv Hko).
    rewrite get_group_nil; [done|].
    intros r (j & Hlt & _ & Hkj)%frame_take_keys Hr. rewrite Hr in Hkj.
    by apply (Hfirst j).
  - intros i j k v vj (Hlt & Hkj & Hki & Hbetween) Hv Hvj.
    rewrite (grouped_diff_lookup _ _ _ _ _ _ Hout Hv Hki).
    set (df := zip (seq 0 (length base)) (zip base keys)).
    assert (take i df !! j = Some (j, (vj, Some k))) as Hrow.
    { rewrite lookup_take_lt by done. apply frame_lookup. eauto. }
    assert (take i df
            = take j df ++ (j, (vj, Some k)) :: drop (S j) (take i df)) as Heq.
    { rewrite <- (take_drop_middle _ _ _ Hrow) at 1. rewrite take_take.
      by replace (j `min` i)%nat with j by lia. }
    rewrite Heq, get_group_app, get_group_cons_key.
    rewrite (get_group_nil (drop (S j) (take i df))).
    + by rewrite last_snoc.
    + intros r [m Hm]%list_elem_of_lookup. rewrite lookup_drop in Hm.
      apply lookup_take_Some in Hm as [Hm Hmi].
      apply frame_lookup in Hm as (v' & ko' & -> & _ & Hko'). simpl.
      intros ->. apply (Hbetween (S j + m)%nat); [lia|done].
Qed.
End GroupedDiffRows.

(** *** The kinds of rows *)

(** A row has a null key, or is the first of its group, or has a row
    immediately before it in its group. *)
Lemma row_cases {K} `{EqDecision K} (keys : list (option K)) (i : nat) (ko : option K) :
  keys !! i = Some ko →
  ko = None
  ∨ (∃ k, ko = Some k ∧ first_of_group keys i k)
  ∨ (∃ k j, ko = Some k ∧ previous_in_group keys j i k).
Proof.
  intros Hi. destruct ko as [k|]; [right|by left].
  assert (∀ n, (n ≤ i)%nat →
            (∀ j, (j < n)%nat → keys !! j ≠ Some (Some k))
            ∨ (∃ j, (j < n)%nat ∧ keys !! j = Some (Some k)
                    ∧ ∀ m, (j < m < n)%nat → keys !! m ≠ Some (Some k))) as Hsearch.
  { induction n as [|n IH]; intros Hn; [left; intros j Hj; lia|].
    destruct (decide (keys !! n = Some (Some k))) as [Hk|Hk].
    - right. exists n. split; [lia|]. split; [done|]. intros m Hm. lia.
    - destruct IH as [Hnone|(j & Hj & Hkj & Hbetween)]; [lia| |].
      + left. intros j Hj. destruct (decide (j = n)) as [->|]; [done|].
        apply Hnone. lia.
      + right. exists j. split; [lia|]. split; [done|]. intros m Hm.
        destruct (decide (m = n)) as [->|]; [done|]. apply Hbetween. lia. }
  destruct (Hsearch i ltac:(lia)) as [Hnone|(j & Hj & Hkj & Hbetween)].
  - left. by exists k.
  - right. by exists k, j.
Qed.

Section GroupedDiffEntries.
Context {K V D : Type} `{EqDecision K}.
Variable sub : V → V → D.
Variable na : D.

(** What holds of the missing value and of the difference of every row with
    the row before it in its group holds of every entry of the output. *)
Lemma grouped_diff_Forall (P : D → Prop) (base : list V) (keys : list (option K))
    (out : list D) :
  grouped_diff sub na base keys = Ok out →
  P na →
  (∀ i j k v vj, previous_in_group keys j i k →
     base !! i = Some v → base !! j = Some vj → P (sub v vj)) →
  Forall P out.
Proof.
  intros Hout Hna Hsub.
  assert (length base = length keys) as Hlen.
  { unfold grouped_diff, DataFrame_from_dict in Hout. by case_bool_decide. }
  apply grouped_diff_rows in Hout as (Hl & Hnull & Hfirst & Hprev).
  apply Forall_lookup. intros i d Hd.
  assert (i < length base)%nat as Hi by (rewrite <- Hl; by eapply lookup_lt_Some).
  destruct (lookup_lt_is_Some_2 base i Hi) as [v Hv].
  destruct (lookup_lt_is_Some_2 keys i ltac:(lia)) as [ko Hko].
  destruct (row_cases keys i ko Hko) as [->|[(k & -> & Hf)|(k & j & -> & Hp)]].
  - rewrite (Hnull i Hko) in Hd. by injection Hd as <-.
  - rewrite (Hfirst i k Hf) in Hd. by injection Hd as <-.
  - destruct (lookup_lt_is_Some_2 base j) as [vj Hvj].
    { destruct Hp as (Hlt & _). lia. }
    rewrite (Hprev i j k v vj Hp Hv Hvj) in Hd. injection Hd as <-. eauto.
Qed.
End GroupedDiffEntries.

(** *** A list of results, in sequence *)

Lemma mapM_id_Ok {A} (l : list (Res A)) : Forall is_Ok l → is_Ok (mapM id l).
Proof.
  induction 1 as [|r l [a ->] _ [k IH]]; [by eexists|].
  simpl. rewrite IH. by eexists.
Qed.

Lemma mapM_id_lookup {A} (l : list (Res A)) (k : list A) (i : nat) (r : Res A) :
  mapM id l = Ok k → l !! i = Some r → ∃ a, r = Ok a ∧ k !! i = Some a.
Proof.
  revert k i. induction l as [|r' l IH]; intros k i; [done|]. simpl.
  destruct r' as [a'|e]; [|discriminate]. simpl.
  destruct (mapM id l) as [k'|e] eqn:Hk'; [|discriminate]. simpl.
  intros [= <-]. destruct i as [|i]; simpl.
  - intros [= <-]. eauto.
  - by apply IH.
Qed.

(** *** Seconds *)

Lemma float_add_zero_r (x : float) :
  Prim2SF x ≠ S754_zero true → (x + 0)%float = x.
Proof.
  intros Hx. apply Prim2SF_inj. rewrite FloatAxioms.add_spec.
  change (Prim2SF 0) with (S754_zero false).
  by destruct (Prim2SF x) as [[|]| | |].
Qed.

Lemma of_uint63_not_negative_zero (n : Uint63.int) :
  Prim2SF (PrimFloat.of_uint63 n) ≠ S754_zero true.
Proof.
  rewrite of_uint63_spec. pose proof (Uint63.to_Z_bounded n) as Hn.
  destruct (Uint63.to_Z n) as [|m|m]; [discriminate| |lia].
  unfold binary_normalize, binary_round, binary_round_aux.
  repeat case_match; discriminate.
Qed.

Lemma Z_to_float_add_zero (z : Z) : 0 ≤ z → (Z_to_float z + 0)%float = Z_to_float z.
Proof.
  intros Hz. destruct z as [|m|m]; [done| |lia].
  apply float_add_zero_r, of_uint63_not_negative_zero.
Qed.

Lemma whole_seconds (s : Z) :
  let ns := s * ns_per_second in
  (ns `div` ns_per_day) * 24 * 3600 + (ns `mod` ns_per_day) `div` ns_per_second = s
  ∧ (ns `mod` ns_per_second) `div` 1000 = 0.
Proof.
  unfold ns_per_day, ns_per_second. simpl. split.
  - pose proof (Z.mod_pos_bound (s * 1000000000) (86400 * 1000000000) ltac:(lia)) as Hr.
    pose proof (Z.div_mod (s * 1000000000) (86400 * 1000000000) ltac:(lia)) as Hdm.
    set (q := (s * 1000000000) `div` (86400 * 1000000000)) in *.
    set (r := (s * 1000000000) `mod` (86400 * 1000000000)) in *.
    clearbody q r.
    assert (r = (s - q * 86400) * 1000000000) as -> by lia.
    rewrite Z.div_mul by lia. lia.
  - by rewrite Z.mod_mul by lia.
Qed.

(** A timedelta of a whole number of seconds, not negative, has that number
    of seconds. *)
Lemma total_seconds_whole (s : Z) :
  0 ≤ s → total_seconds (Some (s * ns_per_second)) = Z_to_float s.
Proof.
  intros Hs. unfold total_seconds. destruct (whole_seconds s) as [-> ->].
  by apply Z_to_float_add_zero.
Qed.

(** *** Diff and TimeSincePrevious *)

Lemma Diff_pd_diff_rows {K} `{EqDecision K} (base : list float)
    (keys : list (option K)) (out : list float) :
  Diff_pd_diff base keys = Ok out →
  length out = length base
  ∧ (∀ i k, first_of_group keys i k → out !! i = Some PrimFloat.nan)
  ∧ (∀ i j k v vj, previous_in_group keys j i k →
       base !! i = Some v → base !! j = Some vj →
       out !! i = Some (v - vj)%float).
Proof.
  intros Hout. apply grouped_diff_rows in Hout as (Hlen & _ & Hfirst & Hprev).
  eauto.
Qed.

(** The difference of two datetimes: a timedelta when it fits, NaT when one
    of them is NaT or the difference is the least int64, and an overflow
    otherwise. *)
Lemma datetime_sub_cases (a b : option Z) :
  match a, b with
  | Some x, Some y =>
      (int64_min < x - y ≤ int64_max ∧ datetime_sub a b = Ok (Some (x - y)))
      ∨ (x - y = int64_min ∧ datetime_sub a b = Ok None)
      ∨ (¬ int64_min ≤ x - y ≤ int64_max ∧ datetime_sub a b = Raise int64_overflow)
  | _, _ => datetime_sub a b = Ok None
  end.
Proof.
  destruct a as [x|], b as [y|]; try done. simpl.
  destruct (checked_sub_cases x y) as [[Hin ->]|[Hout ->]]; simpl.
  - case_bool_decide as Hd; [right; left; done|left]. split; [lia|done].
  - right. by right.
Qed.

Lemma datetime_sub_Ok_or_overflow (a b : option Z) :
  is_Ok (datetime_sub a b) ∨ datetime_sub a b = Raise int64_overflow.
Proof.
  pose proof (datetime_sub_cases a b) as Hc.
  destruct a as [x|], b as [y|]; try (left; by eexists).
  destruct Hc as [[_ ->]|[[_ ->]|[_ ->]]]; [left; by eexists..|by right].
Qed.

(** The difference of two datetimes of a column near the epoch fits. *)
Lemma near_epoch_fits (times : list (option Z)) (i j : nat) (v vj : option Z) :
  near_epoch times → times !! i = Some v → times !! j = Some vj →
  is_Ok (datetime_sub v vj).
Proof.
  intros Hnear Hv Hvj. pose proof (datetime_sub_cases v vj) as Hc.
  destruct v as [x|], vj as [y|]; try (by eexists).
  apply list_elem_of_lookup_2, Hnear in Hv, Hvj.
  destruct Hc as [[_ ->]|[[_ ->]|[Hno _]]]; [by eexists..|].
  unfold int64_min, int64_max in Hno. lia.
Qed.

Lemma TimeSincePrevious_pd_diff_rows {K} `{EqDecision K} (base : list (option Z))
    (keys : list (option K)) (out : list float) :
  TimeSincePrevious_pd_diff base keys = Ok out →
  length out = length base
  ∧ (∀ i, keys !! i = Some None → out !! i = Some PrimFloat.nan)
  ∧ (∀ i k, first_of_group keys i k → out !! i = Some PrimFloat.nan)
  ∧ (∀ i j k v vj, previous_in_group keys j i k →
       base !! i = Some v → base !! j = Some vj →
       ∃ d, datetime_sub v vj = Ok d ∧ out !! i = Some (total_seconds d)).
Proof.
  unfold TimeSincePrevious_pd_diff.
  destruct (grouped_diff datetime_sub (Ok None) base keys) as [diffs|e] eqn:Hg;
    [|discriminate].
  simpl. destruct (mapM id diffs) as [tds|e] eqn:Hm; [|discriminate].
  simpl. intros [= <-].
  change (List.map total_seconds tds) with (total_seconds <$> tds).
  apply grouped_diff_rows in Hg as (Hlen & Hnull & Hfirst & Hprev).
  split; [|split; [|split]].
  - rewrite length_fmap, <- Hlen. symmetry. by eapply mapM_Ok_length.
  - intros i Hi.
    destruct (mapM_id_lookup _ _ i _ Hm (Hnull i Hi)) as (d & [= <-] & Hd).
    by rewrite list_lookup_fmap, Hd.
  - intros i k Hi.
    destruct (mapM_id_lookup _ _ i _ Hm (Hfirst i k Hi)) as (d & [= <-] & Hd).
    by rewrite list_lookup_fmap, Hd.
  - intros i j k v vj Hp Hv Hvj.
    destruct (mapM_id_lookup _ _ i _ Hm (Hprev i j k v vj Hp Hv Hvj)) as (d & Hsub & Hd).
    exists d. split; [done|]. by rewrite list_lookup_fmap, Hd.
Qed.

(** TimeSincePrevious returns when the arrays have one length and the
    difference of every row with the row before it in its group fits. *)
Lemma TimeSincePrevious_pd_diff_Ok {K} `{EqDecision K} (base : list (option Z))
    (keys : list (option K)) :
  length base = length keys →
  (∀ i j k v vj, previous_in_group keys j i k →
     base !! i = Some v → base !! j = Some vj → is_Ok (datetime_sub v vj)) →
  is_Ok (TimeSincePrevious_pd_diff base keys).
Proof.
  intros Hlen Hfit. unfold TimeSincePrevious_pd_diff.
  destruct (grouped_diff datetime_sub (Ok None) base keys) as [diffs|e] eqn:Hg.
  - simpl. destruct (mapM_id_Ok diffs) as [tds ->]; [|by eexists].
    eapply grouped_diff_Forall; [exact Hg|by eexists|exact Hfit].
  - unfold grouped_diff, DataFrame_from_dict in Hg.
    by rewrite bool_decide_eq_true_2 in Hg.
Qed.

(** It raises when one of these differences overflows. *)
Lemma TimeSincePrevious_pd_diff_overflow {K} `{EqDecision K} (base : list (option Z))
    (keys : list (option K)) (i j : nat) (k : K) (x y : Z) :
  length base = length keys →
  previous_in_group keys j i k →
  base !! i = Some (Some x) → base !! j = Some (Some y) →
  ¬ int64_min ≤ x - y ≤ int64_max →
  TimeSincePrevious_pd_diff base keys = Raise int64_overflow.
Proof.
  intros Hlen Hp Hx Hy Hover. unfold TimeSincePrevious_pd_diff.
  destruct (grouped_diff datetime_sub (Ok None) base keys) as [diffs|e] eqn:Hg.
  - simpl. rewrite (mapM_Raise id diffs int64_overflow); [done| |].
    + eapply grouped_diff_Forall; [exact Hg|left; by eexists|].
      intros. apply datetime_sub_Ok_or_overflow.
    + apply grouped_diff_rows in Hg as (_ & _ & _ & Hprev).
      apply Exists_exists. exists (datetime_sub (Some x) (Some y)). split.
      * eapply list_elem_of_lookup_2. by apply (Hprev i j k).
      * pose proof (datetime_sub_cases (Some x) (Some y)) as [[? _]|[[? _]|[_ ->]]];
          [unfold int64_min, int64_max in *; lia..|done].
  - unfold grouped_diff, DataFrame_from_dict in Hg.
    by rewrite bool_decide_eq_true_2 in Hg.
Qed.

Lemma three_rows_groups {K} (g1 g2 : K) :
  g1 ≠ g2 →
  first_of_group [Some g1; Some g1; Some g2] 0 g1
  ∧ previous_in_group [Some g1; Some g1; Some g2] 0 1 g1
  ∧ first_of_group [Some g1; Some g1; Some g2] 2 g2.
Proof.
  intros Hne. split; [|split].
  - split; [done|]. intros j Hj. lia.
  - split; [lia|]. do 2 (split; [done|]). intros m Hm. lia.
  - split; [done|]. intros [|[|j]] Hj; simpl; [congruence..|lia].
Qed.

(** Of three rows with the keys g1, g1, g2 only the second has a row before
    it in its group, the first. *)
Lemma three_rows_previous {K} (g1 g2 k : K) (j i : nat) :
  g1 ≠ g2 → previous_in_group [Some g1; Some g1; Some g2] j i k →
  j = 0%nat ∧ i = 1%nat.
Proof.
  intros Hne (Hlt & Hj & Hi & _).
  destruct i as [|[|[|i]]], j as [|[|[|j]]]; simplify_eq/=; try lia; done.
Qed.

Lemma list_of_three {A} (out : list A) (a b c : A) :
  length out = 3%nat → out !! 0%nat = Some a → out !! 1%nat = Some b →
  out !! 2%nat = Some c → out = [a; b; c].
Proof.
  destruct out as [|a' [|b' [|c' [|]]]]; try discriminate.
  by intros _ [= ->] [= ->] [= ->].
Qed.

(** TimeSincePrevious on three rows with the keys g1, g1, g2. *)
Lemma TimeSincePrevious_three_rows {K} `{EqDecision K} (g1 g2 : K)
    (t1 t2 t3 : option Z) (d : option Z) :
  g1 ≠ g2 → datetime_sub t2 t1 = Ok d →
  TimeSincePrevious_pd_diff [t1; t2; t3] [Some g1; Some g1; Some g2]
  = Ok [PrimFloat.nan; total_seconds d; PrimFloat.nan].
Proof.
  intros Hne Hd. destruct (three_rows_groups g1 g2 Hne) as (H0 & H1 & H2).
  destruct (TimeSincePrevious_pd_diff_Ok [t1; t2; t3] [Some g1; Some g1; Some g2])
    as [out Hout]; [done| |].
  { intros i j k v vj Hp Hv Hvj.
    destruct (three_rows_previous g1 g2 k j i Hne Hp) as [-> ->].
    simplify_eq/=. by eexists. }
  rewrite Hout. f_equal.
  apply TimeSincePrevious_pd_diff_rows in Hout as (Hlen & _ & Hfirst & Hprev).
  apply list_of_three; [done|by eapply Hfirst| |by eapply Hfirst].
  destruct (Hprev 1%nat 0%nat g1 t2 t1 H1 eq_refl eq_refl) as (d' & Hd' & ->).
  congruence.
Qed.

(** C3, as stated, fails for TimeSincePrevious: the datetimes [-2^62] and
    [2^62] ns from the epoch are both int64 datetimes, and on the rows
    (-2^62, 7), (2^62, 7), (0, 9) the function raises OverflowError instead
    of returning the seconds between the first two. *)
Lemma TimeSincePrevious_overflows :
  is_int64 (- 2 ^ 62) ∧ is_int64 (2 ^ 62)
  ∧ TimeSincePrevious_pd_diff [Some (- 2 ^ 62); Some (2 ^ 62); Some 0]
      [Some 7; Some 7; Some 9]
    = Raise int64_overflow.
Proof.
  split; [|split]; [unfold is_int64, int64_min, int64_max; lia..|reflexivity].
Qed.

(** C3 (amended).  On the rows (x1, g1), (x2, g1), (x3, g2), in that order
    and with g1 and g2 distinct, Diff returns the missing value (NaN), then
    x2 - x1, then the missing value.  On the rows (t1, g1), (t2, g1),
    (t3, g2) TimeSincePrevious returns the missing value, then t2 - t1 in
    seconds (when t2 - t1 is a whole number of seconds, not negative, that
    number), then the missing value, provided that t2 - t1 fits an int64
    count of nanoseconds; it raises OverflowError when it does not.  On any
    arrays
    the output has the rows of the input, in their order; the first row of
    each group gets the missing value, and every other row of a group gets
    its value minus the value of the row immediately before it in the group,
    in seconds for TimeSincePrevious, which returns whenever the datetimes
    are less than [2^62] ns from the epoch. *)
Theorem grouped_primitives_rows {K} `{EqDecision K} (g1 g2 : K)
    (x1 x2 x3 : float) (t1 t2 t3 : Z) :
  g1 ≠ g2 →
  Diff_pd_diff [x1; x2; x3] [Some g1; Some g1; Some g2]
    = Ok [PrimFloat.nan; (x2 - x1)%float; PrimFloat.nan]
  ∧ (int64_min < t2 - t1 ≤ int64_max →
       TimeSincePrevious_pd_diff [Some t1; Some t2; Some t3] [Some g1; Some g1; Some g2]
       = Ok [PrimFloat.nan; total_seconds (Some (t2 - t1)); PrimFloat.nan])
  ∧ (∀ s, 0 ≤ s → t2 - t1 = s * ns_per_second → t2 - t1 ≤ int64_max →
       TimeSincePrevious_pd_diff [Some t1; Some t2; Some t3] [Some g1; Some g1; Some g2]
       = Ok [PrimFloat.nan; Z_to_float s; PrimFloat.nan])
  ∧ (¬ int64_min ≤ t2 - t1 ≤ int64_max →
       TimeSincePrevious_pd_diff [Some t1; Some t2; Some t3] [Some g1; Some g1; Some g2]
       = Raise int64_overflow)
  ∧ (∀ (base : list float) (keys : list (option K)) out,
       Diff_pd_diff base keys = Ok out →
       length out = length base
       ∧ (∀ i k, first_of_group keys i k → out !! i = Some PrimFloat.nan)
       ∧ (∀ i j k v vj, previous_in_group keys j i k →
            base !! i = Some v → base !! j = Some vj →
            out !! i = Some (v - vj)%float))
  ∧ (∀ (base : list (option Z)) (keys : list (option K)) out,
       TimeSincePrevious_pd_diff base keys = Ok out →
       length out = length base
       ∧ (∀ i k, first_of_group keys i k → out !! i = Some PrimFloat.nan)
       ∧ (∀ i j k ti tj, previous_in_group keys j i k →
            base !! i = Some (Some ti) → base !! j = Some (Some tj) →
            ti - tj ≠ int64_min →
            out !! i = Some (total_seconds (Some (ti - tj)))))
  ∧ (∀ (base : list (option Z)) (keys : list (option K)),
       length base = length keys → near_epoch base →
       is_Ok (TimeSincePrevious_pd_diff base keys)).
Proof.
  intros Hne. destruct (three_rows_groups g1 g2 Hne) as (H0 & H1 & H2).
  split; [|split; [|split; [|split; [|split; [|split]]]]].
  - assert (∃ out, Diff_pd_diff [x1; x2; x3] [Some g1; Some g1; Some g2] = Ok out)
      as [out Hout] by (eexists; reflexivity).
    rewrite Hout. f_equal.
    apply Diff_pd_diff_rows in Hout as (Hlen & Hfirst & Hprev).
    apply list_of_three; [done|by eapply Hfirst| |by eapply Hfirst].
    by eapply Hprev.
  - intros Hfit. apply TimeSincePrevious_three_rows; [done|].
    pose proof (datetime_sub_cases (Some t2) (Some t1)) as [[_ ->]|[[? _]|[? _]]];
      [done|lia..].
  - intros s Hs Heq Hfit. rewrite <- (total_seconds_whole s Hs), <- Heq.
    apply TimeSincePrevious_three_rows; [done|].
    pose proof (datetime_sub_cases (Some t2) (Some t1)) as [[_ ->]|[[? _]|[? _]]];
      [done|unfold int64_min, ns_per_second in *; lia..].
  - intros Hover.
    by apply (TimeSincePrevious_pd_diff_overflow _ _ 1%nat 0%nat g1 t2 t1).
  - intros base keys out. apply Diff_pd_diff_rows.
  - intros base keys out Hout.
    apply TimeSincePrevious_pd_diff_rows in Hout as (Hlen & _ & Hfirst & Hprev).
    do 2 (split; [done|]). intros i j k ti tj Hp Hi Hj Hnat.
    destruct (Hprev i j k _ _ Hp Hi Hj) as (d & Hd & ->).
    pose proof (datetime_sub_cases (Some ti) (Some tj)) as [[_ Hs]|[[? _]|[_ Hs]]];
      [congruence|done|congruence].
  - intros base keys Hlen Hnear. apply TimeSincePrevious_pd_diff_Ok; [done|].
    intros i j k v vj _. by apply near_epoch_fits.
Qed.

(** Customers 7, 7 and 9: amounts 10, 13 and 20 give NaN, 3, NaN; times 1 s,
    6 s and 7 s after the epoch give NaN, 5 seconds, NaN; times 0 and
    1,500,000,000 ns give one second and a half; times 1,500,000,000 ns and
    0 give minus that; and times 0 and 299,999,997 ns give 299,999
    microseconds. *)
Lemma grouped_primitives_rows_witness :
  Diff_pd_diff [10; 13; 20]%float [Some 7; Some 7; Some 9]
    = Ok [PrimFloat.nan; 3%float; PrimFloat.nan]
  ∧ TimeSincePrevious_pd_diff
      [Some 1000000000; Some 6000000000; Some 7000000000] [Some 7; Some 7; Some 9]
    = Ok [PrimFloat.nan; 5%float; PrimFloat.nan]
  ∧ TimeSincePrevious_pd_diff
      [Some 0; Some 1500000000; Some 7000000000] [Some 7; Some 7; Some 9]
    = Ok [PrimFloat.nan; 1.5%float; PrimFloat.nan]
  ∧ TimeSincePrevious_pd_diff
      [Some 1500000000; Some 0; Some 7000000000] [Some 7; Some 7; Some 9]
    = Ok [PrimFloat.nan; (-1.5)%float; PrimFloat.nan]
  ∧ TimeSincePrevious_pd_diff
      [Some 0; Some 299999997; Some 7000000000] [Some 7; Some 7; Some 9]
    = Ok [PrimFloat.nan; (299999 / 1000000)%float; PrimFloat.nan].
Proof.
  destruct (grouped_primitives_rows 7 9 10%float 13%float 20%float
              1000000000 6000000000 7000000000)
    as (Hd & _ & Hwhole & _); [discriminate|].
  destruct (grouped_primitives_rows 7 9 10%float 13%float 20%float
              0 1500000000 7000000000)
    as (_ & Hfit & _); [discriminate|].
  split; [exact Hd|]. split; [|split; [|split]].
  - apply (Hwhole 5); [lia|reflexivity|unfold int64_max; lia].
  - apply Hfit. unfold int64_min, int64_max. lia.
  - reflexivity.
  - reflexivity.
Defined.

(** * Further properties of the constructors *)

(** ** The expanding flag *)

Lemma expanding_assigned (self : Primitive) (bfs : list Feature) :
  expanding (assigned self bfs) = expanding self || existsb Feature_expanding bfs.
Proof.
  unfold assigned. destruct (existsb Feature_expanding bfs); simpl.
  - by rewrite orb_true_r.
  - by rewrite orb_false_r.
Qed.

Lemma constructed_expanding (self p : Primitive) (args : list Arg) :
  TransformPrimitive__init__ self args = Ok p →
  expanding p = expanding self || existsb Feature_expanding (base_features p).
Proof.
  intros Hp. apply TransformPrimitive_init_Ok in Hp as (bfs & f0 & _ & _ & _ & ->).
  simpl. apply expanding_assigned.
Qed.

(** X2.  A primitive constructed from a fresh object is expanding exactly
    when one of its base features is; and a primitive built over an
    expanding primitive is expanding in turn, so the flag reaches the root
    of a feature tree from any expanding node below it. *)
Theorem expanding_propagates (self p : Primitive) (args : list Arg) :
  expanding self = false →
  TransformPrimitive__init__ self args = Ok p →
  (expanding p = true ↔ ∃ f, f ∈ base_features p ∧ Feature_expanding f = true)
  ∧ (∀ (self' outer : Primitive) (args' : list Arg),
       TransformPrimitive__init__ self' args' = Ok outer →
       TransformFeature p ∈ base_features outer →
       expanding p = true → expanding outer = true).
Proof.
  intros Hself Hp. split.
  - rewrite (constructed_expanding _ _ _ Hp), Hself. simpl.
    rewrite existsb_exists. split.
    + intros (f & Hf & He). exists f. by rewrite list_elem_of_In.
    + intros (f & Hf & He). exists f. by rewrite <- list_elem_of_In.
  - intros self' outer args' Houter Hin Hexp.
    rewrite (constructed_expanding _ _ _ Houter).
    apply orb_true_intro. right. apply existsb_exists.
    exists (TransformFeature p). split; [by apply list_elem_of_In|done].
Qed.

(** Absolute over the expanding [running_total] is expanding, and so is
    IsNull over that Absolute; Absolute over [amount] is not. *)
Lemma expanding_propagates_witness :
  ∃ p q r,
    new_transform Absolute [ArgFeature running_total] = Ok p
    ∧ new_transform IsNull [ArgFeature (TransformFeature p)] = Ok q
    ∧ new_transform Absolute [ArgFeature amount] = Ok r
    ∧ expanding p = true ∧ expanding q = true ∧ expanding r = false.
Proof.
  do 3 eexists. do 3 (split; [reflexivity|]).
  match goal with
  | |- expanding ?p = true ∧ expanding ?q = true ∧ _ =>
      destruct (expanding_propagates (object_new Absolute) p
                  [ArgFeature running_total] eq_refl eq_refl) as [Hiff Hup];
      assert (expanding p = true) as Hp
        by (apply Hiff; exists running_total; split; [left|reflexivity]);
      split; [exact Hp|]; split;
        [apply (Hup (object_new IsNull) q [ArgFeature (TransformFeature p)] eq_refl);
           [left|exact Hp]
        |reflexivity]
  end.
Defined.

(** ** The owning entity *)

Lemma base_features_entity (self p : Primitive) (args : list Arg) :
  TransformPrimitive__init__ self args = Ok p →
  ∀ f, f ∈ base_features p → Feature_entity f = entity p.
Proof.
  intros Hp.
  apply TransformPrimitive_init_Ok in Hp as (bfs & f0 & _ & Hhd & Hone & ->).
  simpl. destruct Hone as (e & _ & Hall). intros f Hf.
  rewrite (Hall f Hf). symmetry. apply Hall.
  destruct bfs as [|f1 bfs]; [done|]. injection Hhd as ->. left.
Qed.

(** X3.  Every base feature of a successfully constructed primitive belongs
    to the entity of the primitive, so a feature tree built by these
    constructors lies in one entity: a primitive among the base features
    has the entity of the primitive above it. *)
Theorem constructed_in_one_entity (self p : Primitive) (args : list Arg) :
  TransformPrimitive__init__ self args = Ok p →
  (∀ f, f ∈ base_features p → Feature_entity f = entity p)
  ∧ (∀ q, TransformFeature q ∈ base_features p → entity q = entity p).
Proof.
  intros Hp. pose proof (base_features_entity _ _ _ Hp) as Hall.
  split; [done|]. intros q Hq. by apply (Hall (TransformFeature q)).
Qed.

(** Diff over [amount] grouped by [customer_id], and IsNull over that Diff:
    both belong to [transactions]. *)
Lemma constructed_in_one_entity_witness :
  ∃ p q,
    new_Diff (ArgFeature amount) (ArgFeature customer_id) = Ok p
    ∧ new_transform IsNull [ArgFeature (TransformFeature p)] = Ok q
    ∧ entity p = "transactions" ∧ entity q = entity p.
Proof.
  do 2 eexists. do 2 (split; [reflexivity|]). split; [reflexivity|].
  match goal with
  | |- entity ?q = entity ?p =>
      destruct (constructed_in_one_entity (object_new IsNull) q
                  [ArgFeature (TransformFeature p)] eq_refl) as [_ Hq];
      symmetry; apply Hq; left
  end.
Defined.

(** X4.  The entity check by the number of base features.  With no base
    feature the constructor raises the entity assertion (whose message says
    "more than one"), for every class; with one base feature it never does;
    with several it passes exactly when each has the entity of the first. *)
Theorem entity_check_by_arity (self : Primitive) (args : list Arg) (bfs : list Feature) :
  mapM _check_feature args = Ok bfs →
  (bfs = [] → TransformPrimitive__init__ self args = Raise entity_mismatch)
  ∧ (∀ f, bfs = [f] →
       TransformPrimitive__init__ self args
       = PrimitiveBase__init__ (assigned self bfs) (Feature_entity f) bfs)
  ∧ (∀ f rest, bfs = f :: rest →
       TransformPrimitive__init__ self args
       = if forallb (λ g, bool_decide (Feature_entity g = Feature_entity f)) rest
         then PrimitiveBase__init__ (assigned self bfs) (Feature_entity f) bfs
         else Raise entity_mismatch).
Proof.
  intros Hargs.
  assert (∀ f rest, bfs = f :: rest →
       TransformPrimitive__init__ self args
       = if forallb (λ g, bool_decide (Feature_entity g = Feature_entity f)) rest
         then PrimitiveBase__init__ (assigned self bfs) (Feature_entity f) bfs
         else Raise entity_mismatch) as Hgen.
  { intros f rest ->.
    destruct (forallb _ rest) eqn:Hall.
    - destruct (TransformPrimitive_init_one_entity self _ _ Hargs) as (f0 & [= <-] & ->);
        [|done].
      exists (Feature_entity f). split; [done|]. intros g Hg.
      apply elem_of_cons in Hg as [->|Hg]; [done|].
      rewrite forallb_forall in Hall. apply list_elem_of_In in Hg.
      specialize (Hall g Hg). by apply bool_decide_eq_true_1 in Hall.
    - apply TransformPrimitive_init_mismatch with (bfs := f :: rest); [done|].
      intros (e & _ & He). apply not_true_iff_false in Hall. apply Hall.
      apply forallb_forall. intros g Hg. apply bool_decide_eq_true_2.
      apply list_elem_of_In in Hg.
      rewrite (He g), (He f); [done|left|by right]. }
  split; [|split; [|done]].
  - intros ->. apply TransformPrimitive_init_mismatch with (bfs := []); [done|].
    by intros (e & Hne & _).
  - intros f ->. by rewrite (Hgen f []).
Qed.

(** No argument at all, for Percentile; and TimeSincePrevious over
    [transaction_time] and [customer_id], which share [transactions]. *)
Lemma entity_check_by_arity_witness :
  new_transform Percentile [] = Raise entity_mismatch
  ∧ is_Ok (new_TimeSincePrevious (ArgFeature transaction_time) (ArgFeature customer_id)).
Proof.
  split.
  - destruct (entity_check_by_arity (object_new Percentile) [] [] eq_refl) as (H0 & _).
    by apply H0.
  - destruct (entity_check_by_arity
                (set_group_feature (object_new TimeSincePrevious) customer_id)
                [ArgFeature transaction_time; ArgFeature customer_id]
                [transaction_time; customer_id] eq_refl) as (_ & _ & Hn).
    unfold new_TimeSincePrevious, TimeSincePrevious__init__. simpl.
    rewrite (Hn transaction_time [customer_id] eq_refl). simpl. eexists. reflexivity.
Defined.

(** ** The grouped constructors *)

Lemma mapM_check_two (a b : Arg) (bfs : list Feature) :
  mapM _check_feature [a; b] = Ok bfs →
  ∃ fa fb, _check_feature a = Ok fa ∧ _check_feature b = Ok fb ∧ bfs = [fa; fb].
Proof.
  simpl. destruct (_check_feature a) as [fa|e]; [|discriminate].
  destruct (_check_feature b) as [fb|e]; [|discriminate].
  simpl. intros [= <-]. eauto.
Qed.

Lemma grouped_layout (b g : Arg) (p : Primitive) :
  new_Diff b g = Ok p ∨ new_TimeSincePrevious b g = Ok p →
  ∃ bf gf,
    _check_feature b = Ok bf ∧ _check_feature g = Ok gf
    ∧ base_features p = [bf; gf] ∧ group_feature p = Some gf
    ∧ Feature_entity bf = Feature_entity gf
    ∧ (new_TimeSincePrevious b g = Ok p →
         issubclass (Feature_variable_type gf) Discrete = true).
Proof.
  intros Hp.
  assert (∃ self gf, _check_feature g = Ok gf ∧ group_feature self = Some gf
            ∧ TransformPrimitive__init__ self [b; ArgFeature gf] = Ok p
            ∧ (new_TimeSincePrevious b g = Ok p →
                 issubclass (Feature_variable_type gf) Discrete = true))
    as (self & gf & Hg & Hself & Hinit & Hdisc).
  { destruct Hp as [Hp|Hp].
    - unfold new_Diff, Diff__init__ in Hp.
      destruct (_check_feature g) as [gf|e] eqn:Hg; [|discriminate]. simpl in Hp.
      exists (set_group_feature (object_new Diff) gf), gf.
      do 2 (split; [done|]). split.
      + unfold TransformPrimitive__init__ in *. simpl in *. by rewrite Hg in Hp.
      + unfold new_TimeSincePrevious, TimeSincePrevious__init__. rewrite Hg. simpl.
        by destruct (issubclass _ _).
    - unfold new_TimeSincePrevious, TimeSincePrevious__init__ in *.
      destruct (_check_feature g) as [gf|e] eqn:Hg; [|discriminate]. simpl in *.
      destruct (issubclass _ _) eqn:Hd; [|discriminate].
      exists (set_group_feature (object_new TimeSincePrevious) gf), gf. eauto. }
  pose proof (base_features_entity _ _ _ Hinit) as Hent.
  apply constructed_attributes in Hinit as (_ & Hgf & _ & Hargs & _).
  apply mapM_check_two in Hargs as (bf & gf' & Hb & [= <-] & Hbfs).
  exists bf, gf. do 2 (split; [done|]). split; [done|].
  split; [by rewrite Hgf|]. split; [|done].
  rewrite (Hent bf), (Hent gf); [done|..]; rewrite Hbfs; repeat constructor.
Qed.

(** X5.  A successfully constructed Diff or TimeSincePrevious has exactly
    two base features, the coerced first argument and the coerced group
    argument in that order; its [group_feature] is the second of them; both
    belong to one entity; and for TimeSincePrevious the kind of the group
    feature is a subtype of Discrete. *)
Theorem grouped_constructors_layout (b g : Arg) (p : Primitive) :
  new_Diff b g = Ok p ∨ new_TimeSincePrevious b g = Ok p →
  ∃ bf gf,
    _check_feature b = Ok bf ∧ _check_feature g = Ok gf
    ∧ base_features p = [bf; gf] ∧ group_feature p = Some gf
    ∧ Feature_entity bf = Feature_entity gf
    ∧ (new_TimeSincePrevious b g = Ok p →
         issubclass (Feature_variable_type gf) Discrete = true).
Proof. apply grouped_layout. Qed.

(** Diff over [amount] grouped by [customer_id]. *)
Lemma grouped_constructors_layout_witness :
  ∃ p, new_Diff (ArgFeature amount) (ArgFeature customer_id) = Ok p
       ∧ base_features p = [amount; customer_id]
       ∧ group_feature p = Some customer_id.
Proof.
  eexists. split; [reflexivity|].
  match goal with
  | |- base_features ?p = _ ∧ _ =>
      destruct (grouped_constructors_layout (ArgFeature amount) (ArgFeature customer_id)
                  p (or_introl eq_refl))
        as (bf & gf & [= <-] & [= <-] & Hb & Hg & _)
  end.
  split; [exact Hb|exact Hg].
Defined.

(** X6.  The order of the checks.  An argument that is not a feature stops
    [TransformPrimitive.__init__] before the entity check, whatever the
    other arguments are.  TimeSincePrevious looks at its group argument
    first: when that is not a feature, or is a feature that is not discrete,
    construction fails on it even if the time index is not a feature
    either. *)
Theorem checks_in_order (self : Primitive) (args : list Arg) (t : Arg) :
  (ArgOther ∈ args →
     TransformPrimitive__init__ self args = Raise ArgumentCoercionError)
  ∧ new_TimeSincePrevious t ArgOther = Raise ArgumentCoercionError
  ∧ (∀ g gf, _check_feature g = Ok gf →
       issubclass (Feature_variable_type gf) Discrete = false →
       new_TimeSincePrevious ArgOther g = Raise group_not_discrete)
  ∧ (∀ g gf, _check_feature g = Ok gf →
       issubclass (Feature_variable_type gf) Discrete = true →
       new_TimeSincePrevious ArgOther g = Raise ArgumentCoercionError).
Proof.
  split; [|split; [done|split]].
  - intros Hin. unfold TransformPrimitive__init__.
    assert (mapM _check_feature args = Raise ArgumentCoercionError) as ->; [|done].
    induction args as [|a args IH]; [by apply elem_of_nil in Hin|].
    simpl. destruct a as [f|c|]; simpl; [..|done].
    + apply elem_of_cons in Hin as [?|Hin]; [done|]. by rewrite (IH Hin).
    + apply elem_of_cons in Hin as [?|Hin]; [done|]. by rewrite (IH Hin).
  - intros g gf Hg Hd. unfold new_TimeSincePrevious, TimeSincePrevious__init__.
    rewrite Hg. simpl. by rewrite Hd.
  - intros g gf Hg Hd. unfold new_TimeSincePrevious, TimeSincePrevious__init__.
    rewrite Hg. simpl. by rewrite Hd.
Qed.

(** * Further properties of the display names *)

Lemma length_append (a b : string) :
  String.length (a +:+ b) = (String.length a + String.length b)%nat.
Proof. induction a as [|c a IH]; simpl; [done|]. by rewrite IH. Qed.

Lemma append_cancel_r (t x y : string) : x +:+ t = y +:+ t → x = y.
Proof.
  revert y. induction x as [|a x IH]; intros [|b y] H; simpl in H; try done.
  - apply (f_equal String.length) in H. simpl in H. rewrite length_append in H. lia.
  - apply (f_equal String.length) in H. simpl in H. rewrite length_append in H. lia.
  - injection H as -> H. f_equal. by apply IH.
Qed.

Lemma constructed_Diff_name (b g : Arg) (p : Primitive) (bn gn : string) :
  new_Diff b g = Ok p →
  mapM Feature_get_name (base_features p) = Ok [bn; gn] →
  get_name p = Ok ("DIFF(" +:+ bn +:+ " by " +:+ gn +:+ ")").
Proof.
  intros Hp Hnames.
  destruct (grouped_layout b g p (or_introl Hp))
    as (bf & gf & _ & _ & Hbfs & Hgf & _).
  assert (cls p = Diff) as Hc.
  { unfold new_Diff, Diff__init__ in Hp.
    destruct (_check_feature g); [|discriminate]. simpl in Hp.
    by apply constructed_attributes in Hp as (-> & _). }
  rewrite Hbfs in Hnames. simpl in Hnames.
  destruct (Feature_get_name bf) as [bn'|] eqn:Hb; [|discriminate].
  destruct (Feature_get_name gf) as [gn'|] eqn:Hg; [|discriminate].
  simpl in Hnames. injection Hnames as -> ->.
  unfold get_name. simpl. unfold dispatch_get_name. rewrite Hc.
  unfold Diff_get_name, first_base_feature_name, group_feature_name, name_upper.
  rewrite Hbfs, Hgf, Hb, Hg, Hc. simpl. by rewrite !append_assoc.
Qed.

(** X7.  The display name of a constructed Diff is DIFF(b by g), with b the
    display name of its base feature and g that of its group feature.
    Unlike TimeSincePrevious, the name keeps both: two Diff instances with
    one group name and different base names have different names, and so do
    two with one base name and different group names. *)
Theorem Diff_display_name (b g b' g' : Arg) (p q : Primitive) (bn gn bn' gn' : string) :
  new_Diff b g = Ok p →
  new_Diff b' g' = Ok q →
  mapM Feature_get_name (base_features p) = Ok [bn; gn] →
  mapM Feature_get_name (base_features q) = Ok [bn'; gn'] →
  get_name p = Ok ("DIFF(" +:+ bn +:+ " by " +:+ gn +:+ ")")
  ∧ (gn = gn' → bn ≠ bn' → get_name p ≠ get_name q)
  ∧ (bn = bn' → gn ≠ gn' → get_name p ≠ get_name q).
Proof.
  intros Hp Hq Hnp Hnq.
  rewrite (constructed_Diff_name _ _ _ _ _ Hp Hnp), (constructed_Diff_name _ _ _ _ _ Hq Hnq).
  split; [done|]. split.
  - intros <- Hne [= H]. apply Hne. by apply append_cancel_r in H.
  - intros <- Hne [= H]. apply Hne.
    apply (inj (String.app _)) in H. injection H as H.
    by apply append_cancel_r in H.
Qed.

(** Diff of [amount] and Diff of [running_total], both grouped by
    [customer_id]. *)
Lemma Diff_display_name_witness :
  ∃ p q,
    new_Diff (ArgFeature amount) (ArgFeature customer_id) = Ok p
    ∧ new_Diff (ArgFeature running_total) (ArgFeature customer_id) = Ok q
    ∧ get_name p = Ok "DIFF(amount by customer_id)"
    ∧ get_name p ≠ get_name q.
Proof.
  do 2 eexists. do 2 (split; [reflexivity|]).
  match goal with
  | |- get_name ?p = _ ∧ get_name ?p ≠ get_name ?q =>
      destruct (Diff_display_name (ArgFeature amount) (ArgFeature customer_id)
                  (ArgFeature running_total) (ArgFeature customer_id) p q
                  "amount" "customer_id" "running_total" "customer_id"
                  eq_refl eq_refl eq_refl eq_refl) as (Hn & Hb & _)
  end.
  split; [exact Hn|]. apply Hb; [reflexivity|discriminate].
Defined.

(** *** The class is read off the name *)

Lemma char_split (c : ascii) (a b x y : string) :
  has_char c a = false → has_char c b = false →
  a +:+ String c x = b +:+ String c y → a = b ∧ x = y.
Proof.
  revert b. induction a as [|d a IH]; intros [|e b] Ha Hb; simpl in *.
  - by intros [= ->].
  - intros [= <- _]. by rewrite Ascii.eqb_refl in Hb.
  - intros [= -> _]. by rewrite Ascii.eqb_refl in Ha.
  - intros [= -> H].
    apply orb_false_elim in Ha as [_ Ha]. apply orb_false_elim in Hb as [_ Hb].
    by destruct (IH b Ha Hb H) as [-> ->].
Qed.

Lemma upper_names_distinct (c d : PrimitiveClass) (n m : string) :
  name c = Some n → name d = Some m → upper n = upper m → c = d.
Proof.
  destruct c; intros [= <-]; destruct d; intros [= <-]; vm_compute;
    intros H; first [ reflexivity | discriminate H ].
Qed.

Lemma upper_name_no_parenthesis (c : PrimitiveClass) (n : string) :
  name c = Some n → has_char "(" (upper n) = false.
Proof. destruct c; intros [= <-]; reflexivity. Qed.

(** The shape of a name of the form NAME(...). *)
Lemma parenthesised_name (p : Primitive) (s : string) :
  parenthesised_naming (cls p) = true → get_name p = Ok s →
  ∃ n rest, name (cls p) = Some n ∧ s = upper n +:+ String "(" rest.
Proof.
  intros Hpar. destruct (default_naming (cls p)) eqn:Hd.
  - rewrite (default_naming_dispatch _ Hd).
    unfold TransformPrimitive_get_name, name_upper.
    destruct (name (cls p)) as [n|]; [|discriminate]. simpl.
    destruct (mapM Feature_get_name (base_features p)) as [names|];
      [|discriminate].
    simpl. intros [= <-]. exists n, (String.concat ", " names +:+ ")").
    split; [done|]. by rewrite !append_assoc.
  - unfold get_name. simpl. unfold dispatch_get_name.
    destruct (cls p) eqn:Hc; try discriminate.
    + unfold Diff_get_name, name_upper. rewrite Hc.
      destruct (first_base_feature_name Feature_get_name p) as [b|]; [|discriminate].
      destruct (group_feature_name Feature_get_name p) as [g|]; [|discriminate].
      intros [= <-]. by eexists "diff", _.
    + unfold Not_get_name.
      destruct (first_base_feature_name Feature_get_name p) as [b|]; [|discriminate].
      intros [= <-]. by eexists "not", _.
Qed.

(** X8.  For the classes whose names have the form NAME(...) (all but
    TimeSincePrevious and IsIn), the display name determines the class: two
    instances of different classes never have the same display name,
    whatever their base features. *)
Theorem display_name_determines_class (p q : Primitive) (s : string) :
  parenthesised_naming (cls p) = true → parenthesised_naming (cls q) = true →
  get_name p = Ok s → get_name q = Ok s →
  cls p = cls q.
Proof.
  intros Hp Hq Gp Gq.
  apply parenthesised_name in Gp as (n & rp & Hn & ->); [|done].
  apply parenthesised_name in Gq as (m & rq & Hm & Heq); [|done].
  apply char_split in Heq as [Hu _];
    [|by eapply upper_name_no_parenthesis..].
  by eapply upper_names_distinct.
Qed.

(** Day over [transaction_time] and Days over [duration] have different
    names. *)
Lemma display_name_determines_class_witness :
  ∃ p q,
    new_transform Day [ArgFeature transaction_time] = Ok p
    ∧ new_transform Days [ArgFeature duration] = Ok q
    ∧ get_name p = Ok "DAY(transaction_time)"
    ∧ get_name p ≠ get_name q.
Proof.
  do 2 eexists. do 2 (split; [reflexivity|]). split; [reflexivity|].
  match goal with
  | |- get_name ?p ≠ get_name ?q =>
      intros Heq;
      assert (cls p = cls q) as Hcls
        by (apply (display_name_determines_class p q "DAY(transaction_time)");
            [reflexivity|reflexivity|reflexivity|by rewrite <- Heq]);
      discriminate Hcls
  end.
Defined.

(** * Feature trees *)

(** Induction on a feature tree: the base features and the group feature of
    an instance come before the instance. *)
Lemma Feature_tree_ind (P : Feature → Prop) :
  (∀ node, P (BaseFeature node)) →
  (∀ self : Primitive,
     Forall P (base_features self) →
     (∀ g, group_feature self = Some g → P g) →
     P (TransformFeature self)) →
  ∀ f, P f.
Proof.
  intros Hbase Htrans. fix go 1. intros [node|self]; [apply Hbase|].
  apply Htrans.
  - destruct self as [c bfs e g l en]. simpl.
    induction bfs as [|x bfs IHl]; constructor; [apply go|apply IHl].
  - destruct self as [c bfs e [g|] l en]; simpl; intros g' [= <-]. apply go.
Qed.

Lemma mapM_is_Ok {A B} (f : A → Res B) (l : list A) :
  Forall (λ x, is_Ok (f x)) l → is_Ok (mapM f l).
Proof.
  induction 1 as [|x l [y Hy] _ [k Hk]]; simpl.
  - by eexists.
  - rewrite Hy. simpl. rewrite Hk. simpl. by eexists.
Qed.

(** On a well-formed tree the display name and the default value are
    computed: neither raises. *)
Lemma well_formed_total (f : Feature) :
  well_formed f = true →
  is_Ok (Feature_get_name f) ∧ is_Ok (Feature_default_value f).
Proof.
  induction f as [node|self IHb IHg] using Feature_tree_ind; intros Hwf.
  - split; by eexists.
  - simpl in Hwf. apply andb_prop in Hwf as [Hwf Hgroup].
    apply andb_prop in Hwf as [Hconc Hbfs].
    destruct (base_features self) as [|f0 rest] eqn:Hbf; [discriminate|].
    rewrite forallb_forall in Hbfs.
    assert (Forall (λ x, is_Ok (Feature_get_name x)) (f0 :: rest)) as Hnames.
    { rewrite Forall_forall in IHb |- *. intros x Hx.
      apply IHb; [done|]. apply Hbfs. by apply list_elem_of_In. }
    assert (is_Ok (Feature_get_name f0) ∧ is_Ok (Feature_default_value f0)) as [[n0 Hn0] Hd0].
    { rewrite Forall_forall in IHb. apply IHb; [left|]. apply Hbfs. by left. }
    split; [|simpl; by rewrite Hbf].
    unfold concrete in Hconc. destruct (name (cls self)) as [n|] eqn:Hn; [|discriminate].
    simpl. unfold dispatch_get_name.
    assert (is_Ok (TransformPrimitive_get_name Feature_get_name self)) as Hdefault.
    { unfold TransformPrimitive_get_name, name_upper. rewrite Hn, Hbf.
      destruct (mapM_is_Ok _ _ Hnames) as [names Hnm].
      rewrite Hnm. by eexists. }
    assert (first_base_feature_name Feature_get_name self = Ok n0) as Hfirst
      by (unfold first_base_feature_name; by rewrite Hbf).
    destruct (cls self) eqn:Hc; try exact Hdefault.
    + destruct (group_feature self) as [g|] eqn:Hg; [|discriminate].
      destruct (IHg g eq_refl Hgroup) as [[gn Hgn] _].
      unfold TimeSincePrevious_get_name, group_feature_name. rewrite Hg, Hgn.
      by eexists.
    + unfold IsIn_get_name. rewrite Hfirst. by eexists.
    + destruct (group_feature self) as [g|] eqn:Hg; [|discriminate].
      destruct (IHg g eq_refl Hgroup) as [[gn Hgn] _].
      unfold Diff_get_name, group_feature_name, name_upper.
      rewrite Hfirst, Hg, Hgn, Hc. by eexists.
    + unfold Not_get_name. rewrite Hfirst. by eexists.
Qed.

Lemma checked_well_formed (args : list Arg) (bfs : list Feature) :
  mapM _check_feature args = Ok bfs →
  Forall (λ a, arg_well_formed a = true) args →
  forallb well_formed bfs = true.
Proof.
  revert bfs. induction args as [|a args IH]; intros bfs; simpl.
  - by intros [= <-].
  - intros Hm Hall. apply Forall_cons in Hall as [Ha Hall].
    destruct (_check_feature a) as [f|] eqn:Hf; [|discriminate]. simpl in Hm.
    destruct (mapM _check_feature args) as [k|]; [|discriminate]. simpl in Hm.
    injection Hm as <-. simpl. rewrite (IH k eq_refl Hall), andb_true_r.
    destruct a; simpl in *; by simplify_eq.
Qed.

(** X9.  Calling a concrete class of the module on arguments that are raw
    columns or well-formed feature trees, when it succeeds, gives a
    well-formed tree again; and on such a tree neither the display name nor
    the default value raises.  So every feature tree built with the concrete
    classes has a name and a default value. *)
Theorem built_trees_have_names (p : Primitive) (args : list Arg) :
  built p args →
  concrete (cls p) = true →
  Forall (λ a, arg_well_formed a = true) args →
  well_formed (TransformFeature p) = true
  ∧ is_Ok (get_name p) ∧ is_Ok (default_value p).
Proof.
  intros Hbuilt Hconc Hargs.
  assert (well_formed (TransformFeature p) = true) as Hwf.
  { assert (∃ self args',
              TransformPrimitive__init__ self args' = Ok p
              ∧ Forall (λ a, arg_well_formed a = true) args'
              ∧ match cls self with
                | TimeSincePrevious | Diff =>
                    ∃ g, group_feature self = Some g ∧ well_formed g = true
                | _ => True
                end) as (self & args' & Hinit & Hargs' & Hgroup).
    { destruct Hbuilt as [c args p Hown Hp|b l p Hp|b g p Hp|t g p Hp].
      - exists (object_new c), args. do 2 (split; [done|]). simpl.
        by destruct c.
      - exists (set_list_of_outputs (object_new IsIn) l), [b]. by repeat split.
      - unfold new_Diff, Diff__init__ in Hp.
        destruct (_check_feature g) as [gf|] eqn:Hg; [|discriminate].
        exists (set_group_feature (object_new Diff) gf), [b; g].
        do 2 (split; [done|]). simpl. exists gf. split; [done|].
        apply Forall_cons in Hargs as [_ [Hgwf _]%Forall_cons].
        destruct g; simpl in *; by simplify_eq.
      - unfold new_TimeSincePrevious, TimeSincePrevious__init__ in Hp.
        destruct (_check_feature g) as [gf|] eqn:Hg; [|discriminate]. simpl in Hp.
        destruct (issubclass _ _); [|discriminate].
        assert (well_formed gf = true) as Hgf.
        { apply Forall_cons in Hargs as [_ [Hgwf _]%Forall_cons].
          destruct g; simpl in *; by simplify_eq. }
        exists (set_group_feature (object_new TimeSincePrevious) gf), [t; ArgFeature gf].
        split; [done|]. split.
        + apply Forall_cons in Hargs as [Ht _]. by repeat constructor.
        + simpl. eauto. }
    apply constructed_attributes in Hinit
      as (Hcls & Hgf & _ & Hchecked & f0 & rest & Hbf & _).
    pose proof (checked_well_formed _ _ Hchecked Hargs') as Hbfs.
    simpl. rewrite Hconc, Hbf. rewrite Hbf in Hbfs. rewrite Hbfs. simpl.
    rewrite Hcls, Hgf. destruct (cls self); try done;
      by destruct Hgroup as (g & -> & ->). }
  split; [done|]. by apply (well_formed_total (TransformFeature p)).
Qed.

(** IsNull over Diff of [amount] by [customer_id]. *)
Lemma built_trees_have_names_witness :
  ∃ d n,
    new_Diff (ArgFeature amount) (ArgFeature customer_id) = Ok d
    ∧ new_transform IsNull [ArgFeature (TransformFeature d)] = Ok n
    ∧ is_Ok (get_name n)
    ∧ get_name n = Ok "IS_NULL(DIFF(amount by customer_id))".
Proof.
  do 2 eexists. split; [reflexivity|].
  match goal with
  | |- new_transform IsNull ?args = Ok _ ∧ _ =>
      split; [reflexivity|];
      match goal with
      | |- is_Ok (get_name ?n) ∧ _ =>
          destruct (built_trees_have_names n args
                      (built_inherited IsNull args n eq_refl eq_refl) eq_refl)
            as (_ & Hn & _); [by repeat constructor|]
      end
  end.
  split; [exact Hn|reflexivity].
Defined.

(** * Further properties of the functions *)

(** ** The Timedelta unit family *)

(** X10.  The function of every concrete Timedelta unit class returns an
    array with one entry for each timedelta, on every array.  The function
    the classes inherit from the base class does so for Days and Seconds
    only: for Hours, Minutes, Weeks, Months and Years it raises, since a
    TimedeltaIndex has no attribute of that name; these are the five classes
    that override it. *)
Theorem timedelta_units_total (DatetimeIndex_getattr : string → option (Z → Z))
    (self : Primitive) (array : list Z) :
  timedelta_unit (cls self) = true →
  (∃ r, Timedelta_unit_get_function DatetimeIndex_getattr self array = Ok r
        ∧ length (ndarray_floats r) = length array)
  ∧ (is_Ok (TimedeltaUnitBasePrimitive_get_function DatetimeIndex_getattr self array)
       ↔ cls self = Days ∨ cls self = Seconds).
Proof.
  intros Hunit. split.
  - unfold Timedelta_unit_get_function.
    destruct (cls self) eqn:Hc; try discriminate Hunit;
      unfold TimedeltaUnitBasePrimitive_get_function; rewrite ?Hc;
      (eexists; split; [reflexivity|]); simpl; by rewrite !length_fmap.
  - unfold TimedeltaUnitBasePrimitive_get_function, is_Ok.
    destruct (cls self) eqn:Hc; try discriminate Hunit; simpl; split;
      try (intros [r Hr]; discriminate Hr);
      try (intros [H|H]; discriminate H);
      eauto.
Qed.

(** Minutes over [duration], on two timedeltas. *)
Lemma timedelta_units_total_witness :
  ∃ p, new_transform Minutes [ArgFeature duration] = Ok p
       ∧ is_Ok (Timedelta_unit_get_function (λ _, None) p [60 * ns_per_second; 0])
       ∧ ¬ is_Ok (TimedeltaUnitBasePrimitive_get_function (λ _, None) p
                    [60 * ns_per_second; 0]).
Proof.
  eexists. split; [reflexivity|].
  match goal with
  | |- is_Ok (Timedelta_unit_get_function _ ?p ?a) ∧ _ =>
      destruct (timedelta_units_total (λ _, None) p a eq_refl)
        as ((r & Hr & _) & Hiff)
  end.
  split.
  - by exists r.
  - intros [H|H]%Hiff; discriminate H.
Defined.




(** ** DaysSince and TimeSince *)




(** ** Diff and TimeSincePrevious at the edges *)

Lemma grouped_diff_lengths {K V D} `{EqDecision K} (sub : V → V → D) (na : D)
    (base : list V) (keys : list (option K)) :
  (length base ≠ length keys → grouped_diff sub na base keys = Raise length_mismatch)
  ∧ (length base = length keys → is_Ok (grouped_diff sub na base keys)).
Proof.
  unfold grouped_diff, DataFrame_from_dict. split; intros Hlen.
  - by rewrite bool_decide_eq_false_2.
  - rewrite bool_decide_eq_true_2 by done. by eexists.
Qed.

Lemma mapM_id_Ok_or_Raise {A} (l : list (Res A)) (e : Exception) :
  Forall (λ r, is_Ok r ∨ r = Raise e) l →
  is_Ok (mapM id l) ∨ mapM id l = Raise e.
Proof.
  induction 1 as [|r l Hr _ IH]; [left; by eexists|]. simpl.
  destruct Hr as [[a ->]| ->]; [|by right]. simpl.
  destruct IH as [[k ->]| ->]; [left; by eexists|by right].
Qed.

(** X13.  Diff and TimeSincePrevious on arrays of different lengths raise
    ValueError.  On arrays of one length (empty arrays too) Diff returns an
    array of that length, and TimeSincePrevious returns one or raises
    OverflowError; it returns whenever the datetimes are less than [2^62]
    ns from the epoch.  In what they return every row with a null group key
    holds the missing value. *)
Theorem grouped_functions_edges {K} `{EqDecision K} (base : list float)
    (times : list (option Z)) (keys : list (option K)) :
  (length base ≠ length keys → Diff_pd_diff base keys = Raise length_mismatch)
  ∧ (length base = length keys →
       ∃ out, Diff_pd_diff base keys = Ok out ∧ length out = length base
              ∧ ∀ i, keys !! i = Some None → out !! i = Some PrimFloat.nan)
  ∧ (length times ≠ length keys →
       TimeSincePrevious_pd_diff times keys = Raise length_mismatch)
  ∧ (length times = length keys →
       (is_Ok (TimeSincePrevious_pd_diff times keys)
        ∨ TimeSincePrevious_pd_diff times keys = Raise int64_overflow)
       ∧ (near_epoch times → is_Ok (TimeSincePrevious_pd_diff times keys))
       ∧ ∀ out, TimeSincePrevious_pd_diff times keys = Ok out →
           length out = length times
           ∧ ∀ i, keys !! i = Some None → out !! i = Some PrimFloat.nan).
Proof.
  split; [|split; [|split]].
  - intros Hlen. unfold Diff_pd_diff. by apply grouped_diff_lengths.
  - intros Hlen. unfold Diff_pd_diff.
    destruct (grouped_diff_lengths PrimFloat.sub PrimFloat.nan base keys) as [_ Hok].
    destruct (Hok Hlen) as [out Hout]. exists out. split; [done|].
    apply grouped_diff_rows in Hout as (Hl & Hnull & _). eauto.
  - intros Hlen. unfold TimeSincePrevious_pd_diff.
    destruct (grouped_diff_lengths datetime_sub (Ok None) times keys) as [Hbad _].
    by rewrite (Hbad Hlen).
  - intros Hlen. split; [|split].
    + unfold TimeSincePrevious_pd_diff.
      destruct (grouped_diff_lengths datetime_sub (Ok None) times keys) as [_ Hok].
      destruct (Hok Hlen) as [diffs Hg]. rewrite Hg. simpl.
      destruct (mapM_id_Ok_or_Raise diffs int64_overflow) as [[tds ->]| ->].
      * eapply grouped_diff_Forall; [exact Hg|left; by eexists|].
        intros. apply datetime_sub_Ok_or_overflow.
      * left. by eexists.
      * by right.
    + intros Hnear. apply TimeSincePrevious_pd_diff_Ok; [done|].
      intros i j k v vj _. by apply near_epoch_fits.
    + intros out Hout.
      apply TimeSincePrevious_pd_diff_rows in Hout as (Hl & Hnull & _). eauto.
Qed.

(** * The display name of IsIn *)

(** A character that is no digit does not occur in a printed number. *)
Lemma pretty_N_go_has_char (c : ascii) (x : N) (s : string) :
  (∀ d, Ascii.eqb (pretty_N_char d) c = false) →
  has_char c (pretty_N_go x s) = has_char c s.
Proof.
  intros Hc. revert s. induction (N.lt_wf_0 x) as [x _ IH]; intros s.
  assert (x = 0 ∨ 0 < x)%N as [->|Hx] by lia.
  - by rewrite pretty_N_go_0.
  - rewrite pretty_N_go_step by done. rewrite IH by by apply N.div_lt.
    simpl. by rewrite Hc.
Qed.

Lemma pretty_N_go_nonempty (x : N) (s : string) :
  s ≠ "" → pretty_N_go x s ≠ "".
Proof.
  revert s. induction (N.lt_wf_0 x) as [x _ IH]; intros s Hs.
  assert (x = 0 ∨ 0 < x)%N as [->|Hx] by lia.
  - by rewrite pretty_N_go_0.
  - rewrite pretty_N_go_step by done. apply IH; [by apply N.div_lt|done].
Qed.

Lemma pretty_positive_has_char (c : ascii) (x : positive) :
  (∀ d, Ascii.eqb (pretty_N_char d) c = false) →
  has_char c (pretty x) = false.
Proof.
  intros Hc. unfold pretty, pretty_positive, pretty, pretty_N.
  rewrite decide_False by done. by rewrite pretty_N_go_has_char.
Qed.

Lemma pretty_positive_nonempty (x : positive) : pretty x ≠ "".
Proof.
  unfold pretty, pretty_positive, pretty, pretty_N.
  rewrite decide_False by done. rewrite pretty_N_go_step by done.
  by apply pretty_N_go_nonempty.
Qed.

Lemma no_digit_is (c : ascii) :
  has_char c "0123456789" = false → ∀ d, Ascii.eqb (pretty_N_char d) c = false.
Proof.
  cbn [has_char]. intros H d. repeat (apply orb_false_elim in H as [? H]).
  unfold pretty_N_char.
  destruct d as [|[[[[p|p|]|[p|p|]|]|[[p|p|]|[p|p|]|]|]
                  |[[[p|p|]|[p|p|]|]|[[p|p|]|[p|p|]|]|]|]]; assumption.
Qed.

Lemma pretty_Z_has_char (c : ascii) (z : Z) :
  has_char c "-0123456789" = false → has_char c (pretty z) = false.
Proof.
  intros H. cbn [has_char] in H. apply orb_false_elim in H as [Hdash H].
  pose proof (no_digit_is c H) as Hd.
  destruct z as [|x|x]; unfold pretty, pretty_Z.
  - cbn [has_char]. specialize (Hd 0%N). cbn [pretty_N_char] in Hd.
    by rewrite Hd.
  - by apply pretty_positive_has_char.
  - change (has_char c (String "-" (pretty (Npos x))) = false).
    cbn [has_char]. rewrite Hdash. by apply pretty_positive_has_char.
Qed.

Lemma has_separator_has_comma (s : string) :
  has_char "," s = false → has_separator s = false.
Proof.
  induction s as [|c s IH]; simpl; [done|].
  intros [Hc Hs]%orb_false_elim. by rewrite Hc, IH.
Qed.

Lemma py_repr_separator_free (v : PyValue) : has_separator (py_repr v) = false.
Proof.
  destruct v as [|[|]|z]; try reflexivity.
  apply has_separator_has_comma. by apply pretty_Z_has_char.
Qed.

Lemma py_repr_nonempty (v : PyValue) : py_repr v ≠ "".
Proof.
  destruct v as [|[|]|[|x|x]]; try done; simpl.
  - apply pretty_positive_nonempty.
Qed.

Lemma py_repr_inj (v w : PyValue) : py_repr v = py_repr w → v = w.
Proof.
  assert (∀ (z : Z) s c, has_char c s = true → has_char c "-0123456789" = false →
            pretty z ≠ s) as Hnum.
  { intros z s c Hs Hc Heq. rewrite <- Heq in Hs.
    by rewrite pretty_Z_has_char in Hs. }
  destruct v as [|[|]|z], w as [|[|]|z']; simpl; try done; intros H.
  - symmetry in H. by apply (Hnum z' "None" "N"%char) in H.
  - symmetry in H. by apply (Hnum z' "True" "T"%char) in H.
  - symmetry in H. by apply (Hnum z' "False" "F"%char) in H.
  - by apply (Hnum z "None" "N"%char) in H.
  - by apply (Hnum z "True" "T"%char) in H.
  - by apply (Hnum z "False" "F"%char) in H.
  - f_equal. by apply (inj pretty).
Qed.

Lemma concat_nonempty (sep a : string) (l : list string) :
  a ≠ "" → String.concat sep (a :: l) ≠ "".
Proof.
  intros Ha. destruct l as [|b l]; simpl; [done|]. by destruct a.
Qed.

(** [str] of a membership list determines the list. *)
Lemma py_str_list_inj (l l' : option (list PyValue)) :
  py_str_list l = py_str_list l' → l = l'.
Proof.
  destruct l as [vs|], l' as [ws|]; simpl; try done.
  intros [= H]. apply append_char_cancel_r in H. f_equal.
  destruct vs as [|v vs], ws as [|w ws]; try done.
  - symmetry in H. by apply concat_nonempty in H; [|apply py_repr_nonempty].
  - by apply concat_nonempty in H; [|apply py_repr_nonempty].
  - apply join_injective in H; try done.
    + revert H. generalize (v :: vs) (w :: ws). clear.
      induction l as [|x l IH]; intros [|y k]; simpl; try done.
      intros [= Hxy Hlk]. f_equal; [by apply py_repr_inj|by apply IH].
    + apply Forall_fmap, Forall_forall. intros x _. apply py_repr_separator_free.
    + apply Forall_fmap, Forall_forall. intros x _. apply py_repr_separator_free.
Qed.

Lemma constructed_IsIn_name (b : Arg) (l : option (list PyValue)) (p : Primitive)
    (bn : string) :
  new_IsIn b l = Ok p →
  mapM Feature_get_name (base_features p) = Ok [bn] →
  get_name p = Ok (bn +:+ ".isin(" +:+ py_str_list l +:+ ")").
Proof.
  intros Hp Hnames. unfold new_IsIn, IsIn__init__ in Hp.
  apply constructed_attributes in Hp as (Hc & _ & Hl & _ & f0 & rest & Hbf & _).
  simpl in Hc, Hl. rewrite Hbf in Hnames. simpl in Hnames.
  destruct (Feature_get_name f0) as [n0|] eqn:Hn0; [|discriminate].
  destruct (mapM Feature_get_name rest) as [ns|]; [|discriminate].
  simpl in Hnames. injection Hnames as -> ->.
  unfold get_name. simpl. unfold dispatch_get_name. rewrite Hc.
  unfold IsIn_get_name, first_base_feature_name. by rewrite Hbf, Hn0, Hl.
Qed.

(** X14.  The display name of a constructed IsIn is the display name of its
    base feature followed by .isin(...) with the printed membership list
    ([None] when there is none).  Two IsIn instances over base features of
    one name and with different membership lists have different names. *)
Theorem IsIn_display_name (b b' : Arg) (l l' : option (list PyValue))
    (p q : Primitive) (bn : string) :
  new_IsIn b l = Ok p →
  new_IsIn b' l' = Ok q →
  mapM Feature_get_name (base_features p) = Ok [bn] →
  mapM Feature_get_name (base_features q) = Ok [bn] →
  get_name p = Ok (bn +:+ ".isin(" +:+ py_str_list l +:+ ")")
  ∧ (l ≠ l' → get_name p ≠ get_name q).
Proof.
  intros Hp Hq Hnp Hnq.
  rewrite (constructed_IsIn_name _ _ _ _ Hp Hnp), (constructed_IsIn_name _ _ _ _ Hq Hnq).
  split; [done|]. intros Hne [= H]. apply Hne.
  apply (inj (String.app _)) in H. injection H as H.
  apply append_char_cancel_r in H. by apply py_str_list_inj.
Qed.

(** IsIn over [amount] with the list [1, 3], with the list [1, -3] and with
    no list. *)
Lemma IsIn_display_name_witness :
  ∃ p q,
    new_IsIn (ArgFeature amount) (Some [PyInt 1; PyInt 3]) = Ok p
    ∧ new_IsIn (ArgFeature amount) (Some [PyInt 1; PyInt (-3)]) = Ok q
    ∧ get_name p = Ok "amount.isin([1, 3])"
    ∧ get_name p ≠ get_name q.
Proof.
  do 2 eexists. do 2 (split; [reflexivity|]).
  match goal with
  | |- get_name ?p = _ ∧ get_name ?p ≠ get_name ?q =>
      destruct (IsIn_display_name (ArgFeature amount) (ArgFeature amount)
                  (Some [PyInt 1; PyInt 3]) (Some [PyInt 1; PyInt (-3)]) p q "amount"
                  eq_refl eq_refl eq_refl eq_refl) as (Hn & Hne)
  end.
  split; [exact Hn|]. apply Hne. discriminate.
Defined.

(** * Names grow with the tree *)

Lemma length_concat_elem (sep n : string) (names : list string) :
  n ∈ names → (String.length n ≤ String.length (String.concat sep names))%nat.
Proof.
  induction names as [|a names IH]; [by intros ?%elem_of_nil|].
  intros Hn. destruct names as [|b names].
  - apply list_elem_of_singleton in Hn as ->. done.
  - change (String.concat sep (a :: b :: names))
      with (a +:+ sep +:+ String.concat sep (b :: names)).
    rewrite !length_append. apply elem_of_cons in Hn as [->|Hn]; [lia|].
    specialize (IH Hn). lia.
Qed.

Lemma mapM_Ok_elem {A B} (f : A → Res B) (l : list A) (k : list B) (x : A) (y : B) :
  mapM f l = Ok k → x ∈ l → f x = Ok y → y ∈ k.
Proof.
  revert k. induction l as [|a l IH]; intros k; [by intros _ ?%elem_of_nil|].
  simpl. destruct (f a) as [b|] eqn:Hb; [|discriminate]. simpl.
  destruct (mapM f l) as [k'|]; [|discriminate]. simpl.
  intros [= <-] Hx Hy. apply elem_of_cons in Hx as [->|Hx].
  - rewrite Hy in Hb. injection Hb as ->. left.
  - right. by apply (IH k').
Qed.

(** X15.  The display name of an instance is strictly longer than the
    display name of every feature it displays (all base features under the
    inherited rule; the first base feature for IsIn and Not; the first base
    feature and the group feature for Diff; the group feature for
    TimeSincePrevious).  So an instance never has the name of a feature its
    name is built from. *)
Theorem display_names_grow (p : Primitive) (s : string) (f : Feature) (n : string) :
  get_name p = Ok s → f ∈ displayed p → Feature_get_name f = Ok n →
  (String.length n < String.length s)%nat ∧ s ≠ n.
Proof.
  intros Hs Hf Hn.
  assert (String.length n < String.length s)%nat as Hlt.
  { unfold get_name in Hs. simpl in Hs. unfold dispatch_get_name in Hs.
    unfold displayed in Hf.
    assert (∀ q, TransformPrimitive_get_name Feature_get_name q = Ok s →
                 f ∈ base_features q → (String.length n < String.length s)%nat)
      as Hdefault.
    { intros q Hq Hin. unfold TransformPrimitive_get_name in Hq.
      destruct (name_upper q) as [u|]; [|discriminate]. simpl in Hq.
      destruct (mapM Feature_get_name (base_features q)) as [names|] eqn:Hm;
        [|discriminate].
      simpl in Hq. injection Hq as <-.
      pose proof (mapM_Ok_elem _ _ _ _ _ Hm Hin Hn) as Hel.
      pose proof (length_concat_elem ", " _ _ Hel).
      simpl. rewrite ?length_append. simpl. lia. }
    assert (∀ b, first_base_feature_name Feature_get_name p = Ok b →
                 f ∈ option_list (head (base_features p)) → b = n) as Hfirst.
    { intros b Hb Hin. unfold first_base_feature_name in Hb.
      destruct (base_features p) as [|f0 rest]; [by apply elem_of_nil in Hin|].
      simpl in Hin. apply list_elem_of_singleton in Hin as ->. congruence. }
    assert (∀ g, group_feature_name Feature_get_name p = Ok g →
                 f ∈ option_list (group_feature p) → g = n) as Hgroup.
    { intros g Hg Hin. unfold group_feature_name in Hg.
      destruct (group_feature p) as [g0|]; [|by apply elem_of_nil in Hin].
      simpl in Hin. apply list_elem_of_singleton in Hin as ->. congruence. }
    destruct (cls p) eqn:Hc; try (by apply (Hdefault p)).
    - unfold TimeSincePrevious_get_name in Hs.
      destruct (group_feature_name Feature_get_name p) as [g|] eqn:Hg; [|discriminate].
      simpl in Hs. injection Hs as <-. rewrite (Hgroup g eq_refl Hf).
      simpl. rewrite ?length_append. simpl. lia.
    - unfold IsIn_get_name in Hs.
      destruct (first_base_feature_name Feature_get_name p) as [b|] eqn:Hb;
        [|discriminate].
      simpl in Hs. injection Hs as <-. rewrite (Hfirst b eq_refl Hf).
      simpl. rewrite ?length_append. simpl. lia.
    - unfold Diff_get_name in Hs.
      destruct (first_base_feature_name Feature_get_name p) as [b|] eqn:Hb;
        [|discriminate].
      destruct (group_feature_name Feature_get_name p) as [g|] eqn:Hg; [|discriminate].
      destruct (name_upper p) as [u|]; [|discriminate].
      simpl in Hs. injection Hs as <-. rewrite ?length_append. simpl.
      rewrite ?length_append. simpl.
      apply elem_of_app in Hf as [Hf|Hf].
      + rewrite <- (Hfirst b eq_refl Hf). lia.
      + rewrite <- (Hgroup g eq_refl Hf). lia.
    - unfold Not_get_name in Hs.
      destruct (first_base_feature_name Feature_get_name p) as [b|] eqn:Hb;
        [|discriminate].
      simpl in Hs. injection Hs as <-. rewrite (Hfirst b eq_refl Hf).
      simpl. rewrite ?length_append. simpl. lia. }
  split; [done|]. intros ->. lia.
Qed.

(** TimeSincePrevious over [transaction_time] grouped by [customer_id]: its
    name is longer than customer_id. *)
Lemma display_names_grow_witness :
  ∃ p, new_TimeSincePrevious (ArgFeature transaction_time) (ArgFeature customer_id) = Ok p
       ∧ get_name p ≠ Ok "customer_id".
Proof.
  eexists. split; [reflexivity|].
  match goal with
  | |- get_name ?p ≠ _ =>
      intros Heq;
      destruct (display_names_grow p "customer_id" customer_id "customer_id" Heq)
        as [Hlt _]; [left|reflexivity|]
  end.
  simpl in Hlt. lia.
Defined.

(** * One group, and groups of one row *)

Section GroupedDiffShapes.
Context {K V D : Type} `{EqDecision K}.
Variable sub : V → V → D.
Variable na : D.

Lemma plain_diff_length (base : list V) :
  length (plain_diff sub na base) = length base.
Proof.
  destruct base as [|b rest]; simpl; [done|].
  rewrite length_zip_with. simpl. lia.
Qed.

(** With one key on every row the grouped difference is the difference of
    consecutive rows. *)
Lemma grouped_diff_one_group (base : list V) (k : K) :
  grouped_diff sub na base (replicate (length base) (Some k))
  = Ok (plain_diff sub na base).
Proof.
  set (keys := replicate (length base) (Some k)).
  assert (length base = length keys) as Hlen by (subst keys; by rewrite length_replicate).
  destruct (grouped_diff_lengths sub na base keys) as [_ Hok].
  destruct (Hok Hlen) as [out Hout]. rewrite Hout. f_equal.
  pose proof (grouped_diff_rows sub na base keys out Hout) as (Hl & _ & Hfirst & Hprev).
  apply (list_eq_same_length _ _ (length base)); [apply plain_diff_length|done|].
  intros i x y Hi Hx Hy.
  assert (∀ j, (j < length base)%nat → keys !! j = Some (Some k)) as Hkeys
    by (intros j Hj; subst keys; by apply lookup_replicate_2).
  destruct i as [|i].
  - rewrite (Hfirst 0%nat k) in Hx by (split; [by apply Hkeys|intros j Hj; lia]).
    destruct base as [|b rest]; simpl in Hy; [done|]. congruence.
  - destruct base as [|b rest]; [done|]. simpl in Hy.
    apply lookup_zip_with_Some in Hy as (v & vj & -> & Hv & Hvj).
    rewrite (Hprev (S i) i k v vj) in Hx; [congruence| |done|done].
    split; [lia|]. split; [apply Hkeys; simpl in *; lia|].
    split; [by apply Hkeys|]. intros m Hm. lia.
Qed.

(** With a different key on every row each row is the first of its group. *)
Lemma grouped_diff_distinct_keys (base : list V) (keys : list (option K)) :
  length base = length keys → NoDup keys →
  grouped_diff sub na base keys = Ok (replicate (length base) na).
Proof.
  intros Hlen Hnd.
  destruct (grouped_diff_lengths sub na base keys) as [_ Hok].
  destruct (Hok Hlen) as [out Hout]. rewrite Hout. f_equal.
  pose proof (grouped_diff_rows sub na base keys out Hout) as (Hl & Hnull & Hfirst & _).
  apply (list_eq_same_length _ _ (length base)); [apply length_replicate|done|].
  intros i x y Hi Hx Hy. apply lookup_replicate_1 in Hy as [-> _].
  destruct (lookup_lt_is_Some_2 keys i ltac:(lia)) as [[k|] Hk].
  - rewrite (Hfirst i k) in Hx; [congruence|].
    split; [done|]. intros j Hj Hkj.
    pose proof (NoDup_lookup _ _ _ _ Hnd Hk Hkj). lia.
  - rewrite (Hnull i Hk) in Hx. congruence.
Qed.
End GroupedDiffShapes.

(** The differences of two columns of datetimes near the epoch all fit. *)
Lemma zip_with_datetime_sub (l1 l2 : list (option Z)) :
  near_epoch l1 → near_epoch l2 →
  mapM id (zip_with datetime_sub l1 l2)
  = Ok (zip_with (λ a b, match a, b with
                         | Some x, Some y => Some (x - y)
                         | _, _ => None
                         end) l1 l2).
Proof.
  revert l2. induction l1 as [|a l1 IH]; intros [|b l2] H1 H2; try done.
  assert (datetime_sub a b
          = Ok match a, b with
               | Some x, Some y => Some (x - y)
               | _, _ => None
               end) as Hab.
  { pose proof (datetime_sub_cases a b) as Hc.
    destruct a as [x|], b as [y|]; try exact Hc.
    assert (- 2 ^ 62 ≤ x < 2 ^ 62) by (apply H1; left).
    assert (- 2 ^ 62 ≤ y < 2 ^ 62) by (apply H2; left).
    destruct Hc as [[_ ->]|[[Hno _]|[Hno _]]]; [done|..];
      unfold int64_min, int64_max in Hno; lia. }
  cbn [zip_with mapM]. rewrite Hab, IH.
  - done.
  - intros t Ht. apply H1. by right.
  - intros t Ht. apply H2. by right.
Qed.

Lemma total_seconds_zip_with (l1 l2 : list (option Z)) :
  total_seconds <$> zip_with (λ a b, match a, b with
                                     | Some x, Some y => Some (x - y)
                                     | _, _ => None
                                     end) l1 l2
  = zip_with seconds_between l1 l2.
Proof.
  revert l2. induction l1 as [|a l1 IH]; intros [|b l2]; try done.
  simpl. rewrite IH. f_equal. by destruct a, b.
Qed.

(** With one key on every row TimeSincePrevious gives the seconds between
    consecutive rows. *)
Lemma TimeSincePrevious_one_group {K} `{EqDecision K} (times : list (option Z)) (k : K) :
  near_epoch times →
  TimeSincePrevious_pd_diff times (replicate (length times) (Some k))
  = Ok (plain_diff seconds_between PrimFloat.nan times).
Proof.
  intros Hnear. unfold TimeSincePrevious_pd_diff.
  rewrite grouped_diff_one_group. simpl.
  destruct times as [|t rest]; [done|]. simpl.
  rewrite zip_with_datetime_sub; [|intros x Hx; apply Hnear; by right|done].
  simpl. f_equal. f_equal.
  change (List.map total_seconds ?l) with (total_seconds <$> l).
  apply total_seconds_zip_with.
Qed.

(** On whole seconds in ascending order the seconds between consecutive
    rows are the differences of the seconds. *)
Lemma zip_with_seconds_between (l1 l2 : list Z) :
  (∀ i a b, l1 !! i = Some a → l2 !! i = Some b → b ≤ a) →
  zip_with seconds_between ((λ s, Some (s * ns_per_second)) <$> l1)
    ((λ s, Some (s * ns_per_second)) <$> l2)
  = zip_with (λ a b, Z_to_float (a - b)) l1 l2.
Proof.
  revert l2. induction l1 as [|a l1 IH]; intros [|b l2] Hle; try done.
  rewrite !fmap_cons. cbn [zip_with]. f_equal.
  - unfold seconds_between.
    replace (a * ns_per_second - b * ns_per_second) with ((a - b) * ns_per_second)
      by lia.
    apply total_seconds_whole. specialize (Hle 0%nat a b eq_refl eq_refl). lia.
  - apply IH. intros i x y Hx Hy. by apply (Hle (S i)).
Qed.

Lemma seconds_between_whole (secs : list Z) :
  ascending secs →
  plain_diff seconds_between PrimFloat.nan ((λ s, Some (s * ns_per_second)) <$> secs)
  = plain_diff (λ a b, Z_to_float (a - b)) PrimFloat.nan secs.
Proof.
  intros Hasc. destruct secs as [|s rest]; [done|].
  rewrite fmap_cons. unfold plain_diff. f_equal.
  apply (zip_with_seconds_between rest (s :: rest)).
  intros i a b Ha Hb. by apply (Hasc i).
Qed.

(** X16.  When every row has the same group key, Diff returns the missing
    value followed by the difference of each row with the row before it,
    and TimeSincePrevious, on datetimes less than [2^62] ns from the epoch,
    the missing value followed by the seconds between each row and the row
    before it: on whole seconds in ascending order, the differences of the
    seconds.  When all group keys differ, every group has one row and both
    return the missing value on every row. *)
Theorem grouped_one_group_and_singletons {K} `{EqDecision K} (base : list float)
    (times : list (option Z)) (secs : list Z) (keys : list (option K)) (k : K) :
  Diff_pd_diff base (replicate (length base) (Some k))
    = Ok (plain_diff PrimFloat.sub PrimFloat.nan base)
  ∧ (near_epoch times →
       TimeSincePrevious_pd_diff times (replicate (length times) (Some k))
       = Ok (plain_diff seconds_between PrimFloat.nan times))
  ∧ (ascending secs → near_epoch ((λ s, Some (s * ns_per_second)) <$> secs) →
       TimeSincePrevious_pd_diff ((λ s, Some (s * ns_per_second)) <$> secs)
         (replicate (length secs) (Some k))
       = Ok (plain_diff (λ a b, Z_to_float (a - b)) PrimFloat.nan secs))
  ∧ (NoDup keys →
       (length base = length keys →
          Diff_pd_diff base keys = Ok (replicate (length base) PrimFloat.nan))
       ∧ (length times = length keys →
          TimeSincePrevious_pd_diff times keys
          = Ok (replicate (length times) PrimFloat.nan))).
Proof.
  split; [|split; [|split]].
  - apply grouped_diff_one_group.
  - apply TimeSincePrevious_one_group.
  - intros Hasc Hnear. rewrite <- (seconds_between_whole secs Hasc).
    rewrite <- (length_fmap (λ s, Some (s * ns_per_second)) secs).
    by apply TimeSincePrevious_one_group.
  - intros Hnd. split; intros Hlen.
    + by apply grouped_diff_distinct_keys.
    + unfold TimeSincePrevious_pd_diff.
      rewrite grouped_diff_distinct_keys by done. simpl.
      clear Hlen.
      assert (mapM id (replicate (length times) (Ok (None : option Z)))
              = Ok (replicate (length times) None)) as ->.
      { induction (length times) as [|n IH]; simpl; [done|]. by rewrite IH. }
      simpl. f_equal.
      induction (length times) as [|n IH]; simpl; [done|]. by rewrite IH.
Qed.
